(** * County assignment: a Rocq model of [scripts/assign_counties.py]

    The script decodes a TopoJSON topology into GeoJSON polygons, builds
    Shapely geometries over them, assigns every pharmacy point to the
    nearest county (accepting it when the county contains the point or lies
    closer than a fixed tolerance) and accumulates a per-county histogram.

    Conventions of the embedding.
    - Python [int] is [Z]; Python [float] is the rational it denotes, [Q]
      (the literal [0.01] is read as [1/100]).
    - An uncaught Python exception is the [Raise] case of [result].
    - JSON values are typed where the script fixes their shape and left
      dynamic ([arcs_json]) where it walks nested lists of references.
    - Shapely ([shape], [is_valid], [STRtree.query_nearest], [contains],
      [distance]) is an external library: it is the interface [Shapely]. *)

From Stdlib Require Import ZArith QArith Ascii String.
From stdpp Require Import base option list strings pretty gmap fin_maps sorting.

Set Warnings "-register-all".
Local Open Scope Z_scope.

(** ** Python preliminaries *)

Inductive exception : Set :=
| IndexError
| KeyError
| ValueError
| TypeError.

Inductive result (A : Type) : Type :=
| Ok (a : A)
| Raise (e : exception).
Arguments Ok {A} a.
Arguments Raise {A} e.

#[global] Instance exception_eq_dec : EqDecision exception.
Proof. solve_decision. Defined.

#[global] Instance result_eq_dec {A} `{EqDecision A} : EqDecision (result A).
Proof. solve_decision. Defined.

#[global] Instance result_ret : MRet result := fun A a => Ok a.
#[global] Instance result_bind : MBind result := fun A B f m =>
  match m with
  | Ok a => f a
  | Raise e => Raise e
  end.

#[global] Instance result_fmap : FMap result := fun A B f m =>
  match m with
  | Ok a => Ok (f a)
  | Raise e => Raise e
  end.

(** [xs[i]] on a Python list, for a non-negative [i]. *)
Definition index {A} (xs : list A) (i : nat) : result A :=
  match xs !! i with
  | Some x => Ok x
  | None => Raise IndexError
  end.

(** The feature identifier as [geom.get("id")] returns it: a JSON string, a
    JSON integer, or [None] when the member is missing (or null). *)
Inductive json_id : Set :=
| IdNone
| IdStr (s : string)
| IdInt (n : Z).

(** [str(x)] on such a value. *)
Definition py_str (x : json_id) : string :=
  match x with
  | IdNone => "None"
  | IdStr s => s
  | IdInt n => pretty n
  end.

Fixpoint zeros (n : nat) : string :=
  match n with
  | O => EmptyString
  | S n => String "0"%char (zeros n)
  end.

Definition is_sign (c : ascii) : bool :=
  bool_decide (c = "+"%char) || bool_decide (c = "-"%char).

(** [s.zfill(width)]: the string is returned as it is when it is already
    [width] long or longer; otherwise zeros are inserted on the left, after
    a leading sign if there is one. *)
Definition zfill (width : nat) (s : string) : string :=
  if (width <=? String.length s)%nat then s
  else
    let fill := zeros (width - String.length s) in
    match s with
    | String c rest => if is_sign c then String c (fill +:+ rest) else fill +:+ s
    | EmptyString => fill
    end.

(** ** The topology document *)

Definition coord : Type := Q * Q.

Record Transform : Type := MkTransform {
  scale : Q * Q;
  translate : Q * Q
}.

(** The [arcs] member of a geometry: nested lists of signed arc references. *)
Inductive arcs_json : Type :=
| Ref (i : Z)
| Arr (items : list arcs_json).

(** The [properties] bag is opaque to the script. *)
Definition properties : Type := list (string * string).

Record geometry : Type := Geometry {
  geom_type : string;
  geom_arcs : option arcs_json;
  geom_id : json_id;
  geom_properties : option properties
}.

Record topology : Type := Topology {
  topo_objects : gmap string (list geometry);
  topo_arcs : list (list coord);
  topo_transform : option Transform
}.

Inductive geojson_geometry : Type :=
| GeoPolygon (coordinates : list (list coord))
| GeoMultiPolygon (coordinates : list (list (list coord))).

Record feature : Type := Feature {
  feat_id : json_id;
  feat_properties : properties;
  feat_geometry : geojson_geometry
}.

(** ** [topojson_to_geojson_features] *)

Section Convert.
Variable topo : topology.

Let arcs := topo_arcs topo.
Let transform := topo_transform topo.

(** The loop of [decode_arc] under a transform: [x], [y] are the running
    sums of the deltas. *)
Fixpoint delta_loop (t : Transform) (x y : Q) (coords : list coord) : list coord :=
  match coords with
  | [] => []
  | (dx, dy) :: rest =>
      let x := (x + dx)%Q in
      let y := (y + dy)%Q in
      ((x * fst (scale t) + fst (translate t))%Q,
       (y * snd (scale t) + snd (translate t))%Q)
        :: delta_loop t x y rest
  end.

Definition decode_arc (arc_index : Z) : result (list coord) :=
  let reverse := arc_index <? 0 in
  let idx := if reverse then Z.lnot arc_index else arc_index in
  coords ← index arcs (Z.to_nat idx);
  let decoded :=
    match transform with
    | Some t => delta_loop t 0%Q 0%Q coords
    | None => coords
    end in
  Ok (if reverse then rev decoded else decoded).

(** [decode_arc] applied to an element of a ring: comparing a list with
    [0] is a [TypeError]. *)
Definition decode_arc_json (arc_idx : arcs_json) : result (list coord) :=
  match arc_idx with
  | Ref i => decode_arc i
  | Arr _ => Raise TypeError
  end.

(** The loop of [decode_ring]; [coords] is the list built so far. *)
Fixpoint ring_loop (coords : list coord) (arc_indices : list arcs_json)
  : result (list coord) :=
  match arc_indices with
  | [] => Ok coords
  | arc_idx :: rest =>
      arc_coords ← decode_arc_json arc_idx;
      let arc_coords :=
        match coords with
        | [] => arc_coords
        | _ :: _ => tail arc_coords
        end in
      ring_loop (coords ++ arc_coords) rest
  end.

(** Iterating over a JSON value of the [arcs] member. *)
Definition iterate (j : arcs_json) : result (list arcs_json) :=
  match j with
  | Arr items => Ok items
  | Ref _ => Raise TypeError
  end.

Definition decode_ring (arc_indices : arcs_json) : result (list coord) :=
  items ← iterate arc_indices;
  ring_loop [] items.

Definition decode_rings (rings : arcs_json) : result (list (list coord)) :=
  items ← iterate rings;
  mapM decode_ring items.

(** The branch on [geom_type]; [Ok None] is the [continue] of the last
    branch. *)
Definition decode_geometry (geom : geometry) : result (option geojson_geometry) :=
  let geom_type := geom_type geom in
  let arcs_data := default (Arr []) (geom_arcs geom) in
  if String.eqb geom_type "Polygon" then
    rings ← decode_rings arcs_data;
    Ok (Some (GeoPolygon rings))
  else if String.eqb geom_type "MultiPolygon" then
    items ← iterate arcs_data;
    polygons ← mapM decode_rings items;
    Ok (Some (GeoMultiPolygon polygons))
  else Ok None.

(** The body of the loop over the geometries. *)
Definition convert_geometry (geom : geometry) : result (option feature) :=
  geojson_geom ← decode_geometry geom;
  Ok (match geojson_geom with
      | Some g => Some (Feature (geom_id geom) (default [] (geom_properties geom)) g)
      | None => None
      end).

Fixpoint features_loop (geometries : list geometry) : result (list feature) :=
  match geometries with
  | [] => Ok []
  | geom :: rest =>
      f ← convert_geometry geom;
      features ← features_loop rest;
      Ok (match f with
          | Some feat => feat :: features
          | None => features
          end)
  end.

Definition topojson_to_geojson_features (object_name : string)
  : result (list feature) :=
  match topo_objects topo !! object_name with
  | None => Raise KeyError
  | Some geometries => features_loop geometries
  end.
End Convert.

(** ** The Shapely interface

    [shape] builds a geometry from a GeoJSON mapping ([None]: it raised, and
    the script's [except Exception] skipped the feature); [query_nearest] is
    [STRtree(county_shapes).query_nearest], which returns an array of
    indices or, as the script's [hasattr] test allows, a single index. *)

Definition point : Type := Q * Q.

Inductive nearest : Set :=
| Scalar (i : nat)
| Indices (l : list nat).

Class Shapely (G : Type) : Type := {
  shape : geojson_geometry → option G;
  is_valid : G → bool;
  query_nearest : list G → point → nearest;
  contains : G → point → bool;
  distance : G → point → Q
}.

Definition Qlt_bool (x y : Q) : bool :=
  match (x ?= y)%Q with
  | Lt => true
  | _ => false
  end.

(** The tolerance of the fallback, [0.01]. *)
Definition tolerance : Q := 1 # 100.

(** ** [main] *)

(** The three variables the assignment loop updates. *)
Record tally : Type := Tally {
  density : gmap string (list Z);
  assigned : Z;
  unassigned : Z
}.

(** [v[i] += 1] *)
Definition increment (v : list Z) (i : nat) : result (list Z) :=
  x ← index v i;
  Ok (<[i := x + 1]> v).

(** The assigned branch on the histogram: the record of [fips] is created
    on first use, then [total] and, for a status in [0..3], one status
    bucket are incremented. *)
Definition record_point (density : gmap string (list Z)) (fips : string) (status : Z)
  : result (gmap string (list Z)) :=
  let v :=
    match density !! fips with
    | Some v => v
    | None => [0; 0; 0; 0; 0]
    end in
  v ← increment v 0;
  v ← (if (0 <=? status) && (status <=? 3)
       then increment v (Z.to_nat (status + 1))
       else Ok v);
  Ok (<[fips := v]> density).

(** [max(totals)] *)
Definition py_max (totals : list Z) : result Z :=
  match totals with
  | [] => Raise ValueError
  | x :: rest => Ok (foldl Z.max x rest)
  end.

(** What the run prints and writes when it reaches its end. *)
Record report : Type := Report {
  pharmacies_loaded : nat;
  county_polygons : nat;
  valid_county_geometries : nat;
  reported_assigned : Z;
  reported_unassigned : Z;
  counties_with_pharmacies : nat;
  max_per_county : Z;
  median_per_county : Z;
  county_density : gmap string (list Z)
}.

Section Main.
Context {G : Type} `{Shapely G}.

(** The loop that builds [county_shapes] and [county_fips_list]. *)
Fixpoint build_shapes (county_features : list feature) : list G * list string :=
  match county_features with
  | [] => ([], [])
  | feat :: rest =>
      let '(county_shapes, county_fips_list) := build_shapes rest in
      match shape (feat_geometry feat) with
      | Some geom =>
          if is_valid geom
          then (geom :: county_shapes,
                zfill 5 (py_str (feat_id feat)) :: county_fips_list)
          else (county_shapes, county_fips_list)
      | None => (county_shapes, county_fips_list)
      end
  end.

Section Assign.
Variable county_shapes : list G.
Variable county_fips_list : list string.

(** [idx = tree.query_nearest(pt)], then [idx[0]] when it has a length. *)
Definition nearest_index (pt : point) : result nat :=
  match query_nearest county_shapes pt with
  | Scalar i => Ok i
  | Indices l => index l 0
  end.

(** The test of the assignment: containment, or the tolerance fallback. *)
Definition accepts (county_geom : G) (pt : point) : bool :=
  contains county_geom pt || Qlt_bool (distance county_geom pt) tolerance.

(** One iteration of the loop over the points. *)
Definition assign_step (st : tally) (p : Q * Q * Z) : result tally :=
  let '(lon, lat, status) := p in
  let pt : point := (lon, lat) in
  idx ← nearest_index pt;
  county_geom ← index county_shapes idx;
  if accepts county_geom pt then
    fips ← index county_fips_list idx;
    density ← record_point (density st) fips status;
    Ok (Tally density (assigned st + 1) (unassigned st))
  else
    Ok (Tally (density st) (assigned st) (unassigned st + 1)).

Fixpoint assign_loop (st : tally) (points : list (Q * Q * Z)) : result tally :=
  match points with
  | [] => Ok st
  | p :: rest =>
      st ← assign_step st p;
      assign_loop st rest
  end.
End Assign.

(** The statistics printed after the loop. *)
Definition stats (density : gmap string (list Z)) : result (Z * Z) :=
  totals ← mapM (fun v : list Z => index v 0) (snd <$> map_to_list density);
  m ← py_max totals;
  median ← index (merge_sort Z.le totals) (length totals / 2);
  Ok (m, median).

Definition main (topo : topology) (points : list (Q * Q * Z)) : result report :=
  county_features ← topojson_to_geojson_features topo "counties";
  let '(county_shapes, county_fips_list) := build_shapes county_features in
  st ← assign_loop county_shapes county_fips_list (Tally ∅ 0 0) points;
  '(m, median) ← stats (density st);
  Ok (Report (length points) (length county_features) (length county_shapes)
             (assigned st) (unassigned st) (size (density st))
             m median (density st)).
End Main.

(** ** A small geometry kernel for concrete runs

    To run the model on concrete inputs, [Shapely] is instantiated with a
    kernel for axis-aligned rectangles: a polygon is represented by the
    bounding box of its outer ring, it is valid when the box has an interior
    and its ring is closed and has four coordinates or more, it contains the
    points strictly inside, and the distance of a point from it is the sum
    of its horizontal and vertical offsets from the box (the Euclidean
    distance whenever one of the two is zero, as for a point beside an
    edge). Multi-polygons and polygons with no outer ring are refused, as
    when [shape] raises. *)

Module Rect.
Record box : Type := Box {
  xmin : Q; ymin : Q; xmax : Q; ymax : Q;
  closed : bool
}.

Definition qmin (a b : Q) : Q := if Qle_bool a b then a else b.
Definition qmax (a b : Q) : Q := if Qle_bool a b then b else a.

Definition bounding_box (p : coord) (ring : list coord) : box :=
  let xs := fst <$> ring in
  let ys := snd <$> ring in
  Box (foldl qmin (fst p) xs) (foldl qmin (snd p) ys)
      (foldl qmax (fst p) xs) (foldl qmax (snd p) ys)
      ((4 <=? length (p :: ring))%nat &&
       match last ring with
       | Some (x, y) => Qeq_bool x (fst p) && Qeq_bool y (snd p)
       | None => false
       end).

Definition shape (g : geojson_geometry) : option box :=
  match g with
  | GeoPolygon ((p :: ring) :: _) => Some (bounding_box p ring)
  | _ => None
  end.

Definition is_valid (b : box) : bool :=
  closed b && Qlt_bool (xmin b) (xmax b) && Qlt_bool (ymin b) (ymax b).

Definition contains (b : box) (pt : point) : bool :=
  Qlt_bool (xmin b) (fst pt) && Qlt_bool (fst pt) (xmax b) &&
  Qlt_bool (ymin b) (snd pt) && Qlt_bool (snd pt) (ymax b).

(** How far [v] lies outside the interval from [lo] to [hi]. *)
Definition offset (lo hi v : Q) : Q :=
  qmax 0 (qmax (lo - v) (v - hi)).

Definition distance (b : box) (pt : point) : Q :=
  (offset (xmin b) (xmax b) (fst pt) + offset (ymin b) (ymax b) (snd pt))%Q.

(** The indices of the boxes nearest to the point, in increasing order. *)
Definition query_nearest (shapes : list box) (pt : point) : nearest :=
  match (fun b => distance b pt) <$> shapes with
  | [] => Indices []
  | d :: ds =>
      let best := foldl qmin d ds in
      Indices (fst <$> filter (fun id => Qeq_bool (snd id) best = true)
                              (imap (fun i d => (i, d)) (d :: ds)))
  end.

#[global] Instance kernel : Shapely box :=
  Build_Shapely box shape is_valid query_nearest contains distance.
End Rect.

(** ** Concrete inputs *)

Definition q (n : Z) : Q := inject_Z n.

(** The arc of the decoding examples, [[0,0],[2,3],[-1,-1]]. *)
Definition arc_deltas : list coord := [(q 0, q 0); (q 2, q 3); (q (-1), q (-1))].

(** The transform of the decoding example, [scale = [2, 2]],
    [translate = [10, 10]]. *)
Definition example_transform : Transform := MkTransform (q 2, q 2) (q 10, q 10).

(** The arc of the reversal example, [[0,0],[1,0],[0,1]]. *)
Definition arc_corner : list coord := [(q 0, q 0); (q 1, q 0); (q 0, q 1)].

(** The square [[0,0],[0,10],[10,10],[10,0],[0,0]], as one arc. *)
Definition arc_square : list coord :=
  [(q 0, q 0); (q 0, q 10); (q 10, q 10); (q 10, q 0); (q 0, q 0)].

(** A second square, [[20,0],[20,10],[30,10],[30,0],[20,0]]. *)
Definition arc_square2 : list coord :=
  [(q 20, q 0); (q 20, q 10); (q 30, q 10); (q 30, q 0); (q 20, q 0)].

(** The [arcs] member of a polygon and of a multi-polygon, from the nested
    lists of references. *)
Definition rings_json (rings : list (list Z)) : arcs_json :=
  Arr ((fun ring => Arr (Ref <$> ring)) <$> rings).

Definition polygons_json (polygons : list (list (list Z))) : arcs_json :=
  Arr (rings_json <$> polygons).

Definition polygon (id : json_id) (rings : list (list Z)) : geometry :=
  Geometry "Polygon" (Some (rings_json rings)) id None.

Definition topology_of (arcs : list (list coord)) (t : option Transform)
    (geometries : list geometry) : topology :=
  Topology {[ "counties" := geometries ]} arcs t.

(** Two square counties, ["01001"] (given as the integer [1001]) and
    ["01003"]. *)
Definition two_counties : topology :=
  topology_of [arc_square; arc_square2] None
    [polygon (IdInt 1001) [[0]]; polygon (IdStr "01003") [[1]]].

(** Two arcs of three coordinates that share an endpoint. *)
Definition arc_first_half : list coord := [(q 0, q 0); (q 1, q 0); (q 1, q 1)].
Definition arc_second_half : list coord := [(q 1, q 1); (q 0, q 1); (q 0, q 0)].

(** One square county, and the same county after a geometry of type
    ["Point"]. *)
Definition one_county : topology :=
  topology_of [arc_square] None [polygon (IdStr "01001") [[0]]].

Definition point_and_county : topology :=
  topology_of [arc_square] None
    [Geometry "Point" None IdNone None; polygon (IdStr "01001") [[0]]].


(** A point in the middle of the first square, with status 0. *)
Definition centre_point : Q * Q * Z := (q 5, q 5, 0).

(** The first square as the rectangle kernel sees it, a point just outside
    its right edge, [(10.005, 5)], and a point away from it, [(20, 20)]. *)
Definition square_box : Rect.box := Rect.Box (q 0) (q 0) (q 10) (q 10) true.
Definition edge_point : Q * Q * Z := ((2001 # 200)%Q, q 5, 1).
Definition far_point : Q * Q * Z := (q 20, q 20, 2).

(** The second square as the rectangle kernel sees it, and a list of five
    points: two for the first county (one beside its edge), one between the
    counties, two for the second county, one of them with a status outside
    [0..3]. *)
Definition square_box2 : Rect.box := Rect.Box (q 20) (q 0) (q 30) (q 10) true.

Definition sample_points : list (Q * Q * Z) :=
  [centre_point; edge_point; (q 15, q 5, 2); (q 25, q 5, 7); (q 25, q 6, 3)].

(** A county whose identifier has more than five characters. *)
Definition geoid_county : topology :=
  topology_of [arc_square] None [polygon (IdStr "0500000US01001") [[0]]].

(** ** Notions used in the statements *)

(** The running sum of the deltas of [coords], from [(0, 0)]. *)
Definition delta_sum (coords : list coord) : coord :=
  foldl (fun s d => ((fst s + fst d)%Q, (snd s + snd d)%Q)) (0%Q, 0%Q) coords.

(** [x * scaleX + translateX, y * scaleY + translateY] *)
Definition affine (t : Transform) (c : coord) : coord :=
  ((fst c * fst (scale t) + fst (translate t))%Q,
   (snd c * snd (scale t) + snd (translate t))%Q).

(** The absolute coordinates of an arc given as deltas under [t]. *)
Definition absolute (t : Transform) (coords : list coord) : list coord :=
  (fun k => affine t (delta_sum (take (S k) coords))) <$> seq 0 (length coords).


(** The geometry types the conversion recognizes. *)
Definition recognized (geom : geometry) : bool :=
  String.eqb (geom_type geom) "Polygon" || String.eqb (geom_type geom) "MultiPolygon".

(** The number of geometries of the object ["counties"] that the conversion
    skips for their type. *)
Definition skipped_geometries (topo : topology) : nat :=
  match topo_objects topo !! "counties" with
  | Some geometries => length (filter (fun g => recognized g = false) geometries)
  | None => 0
  end.



(** The outcome of the assignment loop for one point, apart from the
    histogram: [Some fips] when the point is assigned, [None] when it is
    left unassigned. *)
Section Resolution.
Context {G : Type} `{Shapely G}.
Variable county_shapes : list G.
Variable county_fips_list : list string.

Definition resolve (p : Q * Q * Z) : result (option string) :=
  let '(lon, lat, _) := p in
  let pt : point := (lon, lat) in
  idx ← nearest_index county_shapes pt;
  county_geom ← index county_shapes idx;
  if accepts county_geom pt then
    fips ← index county_fips_list idx;
    Ok (Some fips)
  else Ok None.

Definition assigned_to (fips : string) (p : Q * Q * Z) : Prop :=
  resolve p = Ok (Some fips).

#[global] Instance assigned_to_dec fips p : Decision (assigned_to fips p).
Proof. unfold assigned_to. apply _. Defined.

(** The points assigned to county [fips]. *)
Definition hits (fips : string) (points : list (Q * Q * Z)) : list (Q * Q * Z) :=
  filter (assigned_to fips) points.
End Resolution.

Definition status (p : Q * Q * Z) : Z := snd p.

Definition with_status (k : Z) (points : list (Q * Q * Z)) : list (Q * Q * Z) :=
  filter (fun p => status p = k) points.

(** The record [[total, c0, c1, c2, c3]] of a county to which exactly the
    points [hs] were assigned. *)
Definition expected_record (hs : list (Q * Q * Z)) : list Z :=
  [Z.of_nat (length hs);
   Z.of_nat (length (with_status 0 hs));
   Z.of_nat (length (with_status 1 hs));
   Z.of_nat (length (with_status 2 hs));
   Z.of_nat (length (with_status 3 hs))].

(** The sum of the [total] entries of a histogram. *)
Definition sum_of_totals (density : gmap string (list Z)) : Z :=
  foldr Z.add 0 ((fun kv => default 0 (snd kv !! 0%nat)) <$> map_to_list density).

(** The acceptance condition of the resolver: the candidate contains the
    point, or lies closer to it than the tolerance. *)
Definition near `{Shapely G} (county_geom : G) (pt : point) : Prop :=
  contains county_geom pt = true ∨ (distance county_geom pt < tolerance)%Q.

(** What the assignment loop maintains, [done] being the points processed
    so far: the histogram has a record exactly for the counties some point
    was assigned to, each record counts the points assigned to its county,
    in all and by status, and the counters add up. *)
Section Invariant.
Context {G : Type} `{Shapely G}.
Variable county_shapes : list G.
Variable county_fips_list : list string.

Definition left_unassigned (p : Q * Q * Z) : Prop :=
  resolve county_shapes county_fips_list p = Ok None.

Definition loop_invariant (done : list (Q * Q * Z)) (st : tally) : Prop :=
  (∀ fips,
     density st !! fips =
     if decide (hits county_shapes county_fips_list fips done = [])
     then None
     else Some (expected_record (hits county_shapes county_fips_list fips done))) ∧
  sum_of_totals (density st) = assigned st ∧
  assigned st + unassigned st = Z.of_nat (length done) ∧
  unassigned st = Z.of_nat (length (filter left_unassigned done)).
End Invariant.

(** The coordinates [decode_ring] assembles from decoded arcs whose first
    is not empty. *)
Definition stitch (arcs : list (list coord)) : list coord :=
  match arcs with
  | [] => []
  | a :: rest => a ++ concat (tail <$> rest)
  end.

(** Arc [a] ends where arc [b] starts. *)
Definition joined (a b : list coord) : Prop :=
  ∃ c, last a = Some c ∧ head b = Some c.

(** Every arc of the list ends where the next one starts (and none is
    empty). *)
Fixpoint chained (arcs : list (list coord)) : Prop :=
  match arcs with
  | [] => True
  | a :: rest =>
      match rest with
      | [] => a ≠ []
      | b :: _ => joined a b ∧ chained rest
      end
  end.



(** The features [main] keeps: those whose geometry Shapely builds and
    finds valid. *)
Definition kept `{Shapely G} (feat : feature) : bool :=
  match shape (feat_geometry feat) with
  | Some geom => is_valid geom
  | None => false
  end.

(** The key a feature gets in the histogram. *)
Definition feature_key (feat : feature) : string :=
  zfill 5 (py_str (feat_id feat)).

(** A topology with no polygon at all. *)
Definition no_county : topology :=
  topology_of [arc_square] None [Geometry "Point" None IdNone None].

(** The record of a county in a histogram, all zeros when it has none. *)
Definition record_or_zero (density : gmap string (list Z)) (fips : string) : list Z :=
  default [0; 0; 0; 0; 0] (density !! fips).

(** The status of the point has a bucket. *)
Definition bucketed (p : Q * Q * Z) : Prop := 0 <= status p <= 3.

(** The [total] entries of a histogram, one for each county. *)
Definition county_totals (density : gmap string (list Z)) : list Z :=
  (fun kv => default 0 (snd kv !! 0%nat)) <$> map_to_list density.

(** A histogram of three counties with totals 5, 1 and 3, and one of two
    counties with totals 1 and 2. *)
Definition three_records : gmap string (list Z) :=
  <["01001" := [5; 5; 0; 0; 0]]>
    (<["01003" := [1; 0; 1; 0; 0]]> (<["01005" := [3; 1; 1; 1; 0]]> ∅)).

Definition two_records : gmap string (list Z) :=
  <["01001" := [1; 1; 0; 0; 0]]> (<["01003" := [2; 0; 2; 0; 0]]> ∅).

(** ** [load_county_topojson]

    The JSON library is an interface: [json_load] parses the text of a file
    ([None]: it raised [JSONDecodeError]) and [json_dump] writes a value as
    text. The world the function sees is the cache file, [None] when it does
    not exist, and what the download gives: the decoded body of the
    response, or the exception that [requests.get], [raise_for_status] or
    [resp.json()] raised. Writing the cache file is taken to succeed. *)

Class Json (J : Type) : Type := {
  json_load : string → option J;
  json_dump : J → string
}.

Inductive io_error : Set :=
| RequestException
| HTTPError
| JSONDecodeError.

(** The value returned or the exception raised, and the cache file after
    the call. *)
Definition load_county_topojson `{Json J} (cache : option string)
    (download : io_error + J) : (io_error + J) * option string :=
  match cache with
  | Some text =>
      (match json_load text with
       | Some data => inr data
       | None => inl JSONDecodeError
       end, cache)
  | None =>
      match download with
      | inl e => (inl e, None)
      | inr data => (inr data, Some (json_dump data))
      end
  end.

(** A JSON library for the documents [true] and [false], for concrete
    runs. *)
Module Boolean.
Definition load (text : string) : option bool :=
  if String.eqb text "true" then Some true
  else if String.eqb text "false" then Some false
  else None.

Definition dump (b : bool) : string := if b then "true" else "false".

#[global] Instance codec : Json bool := Build_Json bool load dump.
End Boolean.

(** The [arcs] member of [geom] has the nesting of the other polygon type,
    and is not made of empty lists only. *)
Definition misnested (geom : geometry) : Prop :=
  (geom_type geom = "Polygon" ∧
   ∃ polygons rings,
     geom_arcs geom = Some (polygons_json polygons) ∧
     rings ∈ polygons ∧ rings ≠ []) ∨
  (geom_type geom = "MultiPolygon" ∧
   ∃ rings ring,
     geom_arcs geom = Some (rings_json rings) ∧ ring ∈ rings ∧ ring ≠ []).

(** A polygon whose [arcs] member is that of a multi-polygon. *)
Definition misnested_county : topology :=
  topology_of [arc_square] None
    [Geometry "Polygon" (Some (polygons_json [[[0]]])) (IdStr "01001") None].

(** * Properties *)

(** The two square counties convert to two features, which the rectangle
    kernel turns into the two boxes with their padded identifiers. *)
Example two_counties_shapes :
  (build_shapes (G := Rect.box)) <$> topojson_to_geojson_features two_counties "counties"
  = Ok ([square_box; square_box2], ["01001"; "01003"]).
Proof. vm_compute. reflexivity. Qed.

(** ** The arc decoder *)

Lemma index_lookup {A} (xs : list A) (i : nat) (x : A) :
  xs !! i = Some x → index xs i = Ok x.
Proof. intros E. unfold index. now rewrite E. Qed.


Lemma delta_loop_running t coords : ∀ x y,
  delta_loop t x y coords =
  (fun k => affine t (foldl (fun s d => ((fst s + fst d)%Q, (snd s + snd d)%Q))
                            (x, y) (take (S k) coords)))
    <$> seq 0 (length coords).
Proof.
  induction coords as [|[dx dy] rest IH]; intros x y; [reflexivity|].
  cbn [delta_loop length seq fmap list_fmap].
  f_equal. rewrite IH, <- fmap_S_seq, <- list_fmap_compose.
  reflexivity.
Qed.

Lemma delta_loop_absolute t coords :
  delta_loop t 0%Q 0%Q coords = absolute t coords.
Proof. apply delta_loop_running. Qed.

(** C2, as stated, fails: with no transform the arc [[0,0],[2,3],[-1,-1]] is
    returned as it is, its last coordinate is [(-1, -1)] and not the running
    sum [(1, 2)]. *)
Lemma decode_arc_no_transform_not_summed :
  decode_arc (topology_of [arc_deltas] None []) 0
  ≠ Ok [(q 0, q 0); (q 2, q 3); (q 1, q 2)].
Proof. vm_compute. discriminate. Qed.

(** C2, amended: decoding the arc at a non-negative index returns the arc's
    coordinates unchanged when the topology has no transform, and under a
    transform the running delta sums mapped through
    [x * scaleX + translateX, y * scaleY + translateY]. *)
Theorem decode_arc_forward (topo : topology) (i : Z) (coords : list coord) :
  0 <= i →
  topo_arcs topo !! Z.to_nat i = Some coords →
  decode_arc topo i =
  Ok (match topo_transform topo with
      | Some t => absolute t coords
      | None => coords
      end).
Proof.
  intros Hi Hc. unfold decode_arc.
  destruct (Z.ltb_spec i 0) as [Hneg|_]; [lia|].
  rewrite (index_lookup _ _ _ Hc). cbn.
  destruct (topo_transform topo) as [t|]; [|reflexivity].
  now rewrite delta_loop_absolute.
Qed.

(** The two decodings of [[0,0],[2,3],[-1,-1]]: unchanged without a
    transform, [[10,10],[14,16],[12,14]] under [example_transform]. *)
Lemma decode_arc_forward_examples :
  decode_arc (topology_of [arc_deltas] None []) 0
  = Ok [(q 0, q 0); (q 2, q 3); (q (-1), q (-1))] ∧
  decode_arc (topology_of [arc_deltas] (Some example_transform) []) 0
  = Ok [(q 10, q 10); (q 14, q 16); (q 12, q 14)].
Proof.
  split.
  - exact (decode_arc_forward (topology_of [arc_deltas] None []) 0 arc_deltas
             (Z.le_refl 0) eq_refl).
  - exact (decode_arc_forward
             (topology_of [arc_deltas] (Some example_transform) []) 0 arc_deltas
             (Z.le_refl 0) eq_refl).
Defined.

(** C8: decoding a negative reference [r] is decoding the arc at index
    [-(r+1)] and reversing the result (and fails when that decoding fails). *)
Theorem decode_arc_negative (topo : topology) (r : Z) :
  r < 0 →
  decode_arc topo r = rev (A:=coord) <$> decode_arc topo (- (r + 1)).
Proof.
  intros Hr. unfold decode_arc.
  destruct (Z.ltb_spec r 0) as [_|Hge]; [|lia].
  destruct (Z.ltb_spec (- (r + 1)) 0) as [Hlt|_]; [lia|].
  replace (Z.lnot r) with (- (r + 1)) by (unfold Z.lnot; lia).
  destruct (index (topo_arcs topo) (Z.to_nat (- (r + 1)))); reflexivity.
Qed.

(** Reference [-1] for the arc [[0,0],[1,0],[0,1]]: the arc from its end to
    its start. *)
Lemma decode_arc_negative_example :
  -1 < 0 ∧
  decode_arc (topology_of [arc_corner] None []) (-1)
  = Ok [(q 0, q 1); (q 1, q 0); (q 0, q 0)].
Proof.
  split; [reflexivity|].
  exact (decode_arc_negative (topology_of [arc_corner] None []) (-1) eq_refl).
Defined.

(** ** The ring assembler *)





(** ** The conversion of the geometries *)

Lemma bind_ret {A} (m : result A) : (m ≫= fun a => Ok a) = m.
Proof. now destruct m. Qed.

Lemma convert_unrecognized (topo : topology) (geom : geometry) :
  recognized geom = false → convert_geometry topo geom = Ok None.
Proof.
  unfold recognized, convert_geometry, decode_geometry. intros R.
  apply orb_false_elim in R as [-> ->]. reflexivity.
Qed.

Lemma features_loop_recognized (topo : topology) (geometries : list geometry) :
  features_loop topo geometries
  = features_loop topo (filter (fun g => recognized g = true) geometries).
Proof.
  induction geometries as [|g rest IH]; [reflexivity|].
  destruct (recognized g) eqn:R.
  - rewrite filter_cons_True by exact R. cbn [features_loop]. now rewrite IH.
  - rewrite filter_cons_False by congruence. cbn [features_loop].
    rewrite (convert_unrecognized topo g R). cbn. rewrite <- IH.
    apply bind_ret.
Qed.

Lemma features_loop_ids (topo : topology) (geometries : list geometry) :
  ∀ features,
    features_loop topo geometries = Ok features →
    feat_id <$> features
    = geom_id <$> filter (fun g => recognized g = true) geometries.
Proof.
  induction geometries as [|g rest IH]; intros features Hf.
  - injection Hf as <-. reflexivity.
  - cbn [features_loop] in Hf.
    destruct (recognized g) eqn:R.
    + rewrite filter_cons_True by exact R.
      unfold convert_geometry in Hf.
      destruct (decode_geometry topo g) as [[gg|]|e] eqn:D; cbn in Hf.
      * destruct (features_loop topo rest) as [fs|e]; [|discriminate].
        injection Hf as <-. cbn. f_equal. now apply IH.
      * unfold decode_geometry, recognized in D, R.
        destruct (String.eqb (geom_type g) "Polygon").
        { destruct (decode_rings topo _); discriminate. }
        destruct (String.eqb (geom_type g) "MultiPolygon"); [|discriminate].
        destruct (iterate _) as [items|]; [|discriminate]. cbn in D.
        destruct (mapM _ items); discriminate.
      * discriminate.
    + rewrite filter_cons_False by congruence.
      rewrite (convert_unrecognized topo g R) in Hf. cbn in Hf.
      destruct (features_loop topo rest) as [fs|e]; [|discriminate].
      injection Hf as <-. now apply IH.
Qed.

(** C6, amended: a geometry whose type is neither ["Polygon"] nor
    ["MultiPolygon"] is skipped without error and left out of the features:
    the conversion gives what it gives on the recognized geometries alone,
    one feature for each of them, in order. (No count of the skipped
    geometries is kept.) *)
Theorem unrecognized_geometries_skipped (topo : topology) (object_name : string)
    (geometries : list geometry) :
  topo_objects topo !! object_name = Some geometries →
  (∀ g, g ∈ geometries → recognized g = false →
        convert_geometry topo g = Ok None) ∧
  topojson_to_geojson_features topo object_name
  = features_loop topo (filter (fun g => recognized g = true) geometries) ∧
  (∀ features,
     topojson_to_geojson_features topo object_name = Ok features →
     feat_id <$> features
     = geom_id <$> filter (fun g => recognized g = true) geometries).
Proof.
  intros Hobj. unfold topojson_to_geojson_features. rewrite Hobj.
  split; [|split].
  - intros g _ R. now apply convert_unrecognized.
  - apply features_loop_recognized.
  - apply features_loop_ids.
Qed.

(** The geometry of type ["Point"] is skipped, the county after it is
    converted. *)
Lemma unrecognized_geometries_skipped_example :
  topojson_to_geojson_features point_and_county "counties"
  = features_loop point_and_county [polygon (IdStr "01001") [[0]]] ∧
  (∀ features,
     topojson_to_geojson_features point_and_county "counties" = Ok features →
     feat_id <$> features = [IdStr "01001"]).
Proof.
  exact (proj2 (unrecognized_geometries_skipped point_and_county "counties"
                  [Geometry "Point" None IdNone None; polygon (IdStr "01001") [[0]]]
                  eq_refl)).
Defined.

(** ** Arc references out of range *)





(** The first element on which [f] raises decides the error of [mapM f]. *)
Lemma mapM_raises {A B} (f : A → result B) (l : list A) (e : exception) :
  mapM f l = Raise e → ∃ x, x ∈ l ∧ f x = Raise e.
Proof.
  induction l as [|x l IH]; cbn; [discriminate|].
  destruct (f x) as [y|e0] eqn:F; cbn.
  - destruct (mapM f l) as [k|e1]; cbn; [discriminate|].
    intros [= <-]. destruct (IH eq_refl) as (x' & Hin & Hx').
    exists x'. split; [now apply elem_of_cons; right|exact Hx'].
  - intros [= <-]. exists x. split; [apply elem_of_cons; now left|exact F].
Qed.

Lemma mapM_raise {A B} (f : A → result B) (l : list A) (x : A) (e0 : exception) :
  x ∈ l → f x = Raise e0 →
  (∀ y e, y ∈ l → f y = Raise e → e = e0) →
  mapM f l = Raise e0.
Proof.
  intros Hin Hx Hall.
  destruct (mapM f l) as [k|e] eqn:M.
  - exfalso. revert k M. induction l as [|y l IH]; [inversion Hin|].
    intros k. cbn. apply elem_of_cons in Hin as [<-|Hin].
    + now rewrite Hx.
    + destruct (f y); cbn; [|discriminate].
      destruct (mapM f l) as [k'|] eqn:M'; cbn; [|discriminate].
      intros _. apply (IH Hin) with k'; [|reflexivity].
      intros y' e' Hy'. apply Hall. apply elem_of_cons. now right.
  - apply mapM_raises in M as (y & Hy & Fy). f_equal. exact (Hall y e Hy Fy).
Qed.





Lemma features_loop_raises (topo : topology) (geometries : list geometry)
    (geom : geometry) (e : exception) :
  geom ∈ geometries → convert_geometry topo geom = Raise e →
  ∃ e', features_loop topo geometries = Raise e'.
Proof.
  induction geometries as [|g rest IH]; intros Hin Hg; [inversion Hin|].
  cbn [features_loop]. apply elem_of_cons in Hin as [<-|Hin].
  - rewrite Hg. now exists e.
  - destruct (convert_geometry topo g) as [f|e0]; cbn; [|now exists e0].
    destruct (IH Hin Hg) as [e' ->]. now exists e'.
Qed.

Lemma main_raises `{Shapely G} (topo : topology) (points : list (Q * Q * Z))
    (e : exception) :
  topojson_to_geojson_features topo "counties" = Raise e →
  main topo points = Raise e.
Proof. intros F. unfold main. now rewrite F. Qed.




(** ** The assignment of one point *)

Lemma Qlt_bool_iff (x y : Q) : Qlt_bool x y = true ↔ (x < y)%Q.
Proof.
  unfold Qlt_bool. rewrite Qlt_alt.
  destruct (x ?= y)%Q; split; congruence.
Qed.

Section AssignStep.
Context {G : Type} `{Shapely G}.
Variable county_shapes : list G.
Variable county_fips_list : list string.

Lemma accepts_iff (g : G) (pt : point) :
  accepts g pt = true ↔ contains g pt = true ∨ (distance g pt < tolerance)%Q.
Proof. unfold accepts. now rewrite orb_true_iff, Qlt_bool_iff. Qed.

(** The loop body is the resolution of the point followed by the update
    of the counters. *)
Lemma assign_step_resolve (st : tally) (p : Q * Q * Z) :
  assign_step county_shapes county_fips_list st p =
  (r ← resolve county_shapes county_fips_list p;
   match r with
   | Some fips =>
       density ← record_point (density st) fips (status p);
       Ok (Tally density (assigned st + 1) (unassigned st))
   | None => Ok (Tally (density st) (assigned st) (unassigned st + 1))
   end).
Proof.
  destruct p as [[lon lat] s]. unfold assign_step, resolve, status. cbn.
  destruct (nearest_index county_shapes (lon, lat)) as [idx|e]; cbn; [|reflexivity].
  destruct (index county_shapes idx) as [g|e]; cbn; [|reflexivity].
  destruct (accepts g (lon, lat)); [|reflexivity].
  destruct (index county_fips_list idx); reflexivity.
Qed.

Lemma resolve_candidate (lon lat : Q) (s : Z) (idx : nat) (g : G) (fips : string) :
  nearest_index county_shapes (lon, lat) = Ok idx →
  county_shapes !! idx = Some g →
  county_fips_list !! idx = Some fips →
  resolve county_shapes county_fips_list (lon, lat, s)
  = Ok (if accepts g (lon, lat) then Some fips else None).
Proof.
  intros Hn Hg Hf. unfold resolve. rewrite Hn. cbn.
  rewrite (index_lookup _ _ _ Hg). cbn.
  destruct (accepts g (lon, lat)); [|reflexivity].
  now rewrite (index_lookup _ _ _ Hf).
Qed.

(** The policy of the resolver where the index gives a candidate: with [g]
    the candidate and [fips] its identifier, the point is assigned to
    [fips] if and only if [g] contains it or lies closer to it than the
    tolerance 0.01, and is left unassigned otherwise; in particular a
    point outside [g] but closer than 0.01 is assigned. The loop body then
    counts the point in the histogram, respectively in [unassigned]. *)
Theorem assignment_policy (st : tally) (lon lat : Q) (s : Z) (idx : nat)
    (g : G) (fips : string) :
  nearest_index county_shapes (lon, lat) = Ok idx →
  county_shapes !! idx = Some g →
  county_fips_list !! idx = Some fips →
  (resolve county_shapes county_fips_list (lon, lat, s) = Ok (Some fips)
   ↔ near g (lon, lat)) ∧
  (resolve county_shapes county_fips_list (lon, lat, s) = Ok None
   ↔ ¬ near g (lon, lat)) ∧
  (near g (lon, lat) →
   assign_step county_shapes county_fips_list st (lon, lat, s)
   = (density ← record_point (density st) fips s;
      Ok (Tally density (assigned st + 1) (unassigned st)))) ∧
  (¬ near g (lon, lat) →
   assign_step county_shapes county_fips_list st (lon, lat, s)
   = Ok (Tally (density st) (assigned st) (unassigned st + 1))) ∧
  (contains g (lon, lat) = false → (distance g (lon, lat) < 1 # 100)%Q →
   resolve county_shapes county_fips_list (lon, lat, s) = Ok (Some fips)).
Proof.
  intros Hn Hg Hf.
  pose proof (resolve_candidate lon lat s idx g fips Hn Hg Hf) as R.
  pose proof (accepts_iff g (lon, lat)) as A. fold (near g (lon, lat)) in A.
  rewrite !assign_step_resolve, R. cbn [mbind result_bind status snd].
  destruct (accepts g (lon, lat)).
  - assert (N : near g (lon, lat)) by now apply A.
    repeat split; try tauto; try discriminate; intros; tauto.
  - assert (N : ¬ near g (lon, lat)) by (intros N; apply A in N; discriminate).
    repeat split; try tauto; try discriminate.
    intros _ D. exfalso. apply N. now right.
Qed.
End AssignStep.

(** The point [(10.005, 5)], outside the square and 0.005 away from it, is
    assigned to the square's county. *)
Lemma assignment_policy_example :
  Rect.contains square_box (fst edge_point) = false ∧
  (Rect.distance square_box (fst edge_point) < 1 # 100)%Q ∧
  resolve [square_box] ["01001"] edge_point = Ok (Some "01001").
Proof.
  split; [reflexivity|]. split; [reflexivity|].
  destruct (assignment_policy (G := Rect.box) [square_box] ["01001"] (Tally ∅ 0 0)
              (2001 # 200)%Q (q 5) 1 0%nat square_box "01001")
    as (_ & _ & _ & _ & P); [reflexivity..|].
  apply P; reflexivity.
Defined.

(** ** The histogram *)

Lemma sum_permutation (l1 l2 : list Z) :
  l1 ≡ₚ l2 → foldr Z.add 0 l1 = foldr Z.add 0 l2.
Proof.
  induction 1 as [|x l1 l2 _ IH|x y l|l1 l2 l3 _ IH1 _ IH2]; cbn; lia.
Qed.

Lemma sum_of_totals_empty : sum_of_totals ∅ = 0.
Proof. unfold sum_of_totals. now rewrite map_to_list_empty. Qed.

Lemma sum_of_totals_insert_fresh (d : gmap string (list Z)) (f : string) (v : list Z) :
  d !! f = None →
  sum_of_totals (<[f := v]> d) = default 0 (v !! 0%nat) + sum_of_totals d.
Proof.
  intros Hf. unfold sum_of_totals.
  rewrite (sum_permutation _ _
             (fmap_Permutation _ _ _ (map_to_list_insert d f v Hf))).
  reflexivity.
Qed.

Lemma sum_of_totals_insert (d : gmap string (list Z)) (f : string) (v v' : list Z) :
  d !! f = Some v →
  sum_of_totals (<[f := v']> d)
  = sum_of_totals d - default 0 (v !! 0%nat) + default 0 (v' !! 0%nat).
Proof.
  intros Hf.
  rewrite <- (insert_delete_id d f v Hf) at 2.
  rewrite <- (insert_delete_eq d f v').
  rewrite !sum_of_totals_insert_fresh by apply lookup_delete_eq. lia.
Qed.

Lemma with_status_snoc (k : Z) (hs : list (Q * Q * Z)) (p : Q * Q * Z) :
  Z.of_nat (length (with_status k (hs ++ [p])))
  = Z.of_nat (length (with_status k hs)) + (if decide (status p = k) then 1 else 0).
Proof.
  unfold with_status. rewrite filter_app, length_app.
  destruct (decide (status p = k)) as [E|E].
  - rewrite (filter_cons_True _ p []) by exact E. cbn. lia.
  - rewrite (filter_cons_False _ p []) by exact E. cbn. lia.
Qed.

Lemma expected_record_snoc (hs : list (Q * Q * Z)) (p : Q * Q * Z) :
  expected_record (hs ++ [p]) =
  [Z.of_nat (length hs) + 1;
   Z.of_nat (length (with_status 0 hs)) + (if decide (status p = 0) then 1 else 0);
   Z.of_nat (length (with_status 1 hs)) + (if decide (status p = 1) then 1 else 0);
   Z.of_nat (length (with_status 2 hs)) + (if decide (status p = 2) then 1 else 0);
   Z.of_nat (length (with_status 3 hs)) + (if decide (status p = 3) then 1 else 0)].
Proof.
  unfold expected_record. rewrite !with_status_snoc, length_app. cbn [length].
  repeat f_equal. lia.
Qed.

(** The update of the histogram for a point assigned to [fips], on a
    histogram whose record for [fips] counts the points [hs]. *)
Lemma record_point_expected (d : gmap string (list Z)) (fips : string)
    (hs : list (Q * Q * Z)) (p : Q * Q * Z) :
  d !! fips = (if decide (hs = []) then None else Some (expected_record hs)) →
  record_point d fips (status p) = Ok (<[fips := expected_record (hs ++ [p])]> d).
Proof.
  intros Hd. unfold record_point.
  assert (V : match d !! fips with Some v => v | None => [0; 0; 0; 0; 0] end
              = expected_record hs).
  { rewrite Hd. destruct (decide (hs = [])) as [->|_]; reflexivity. }
  rewrite V, expected_record_snoc. clear V Hd.
  unfold expected_record, increment. cbn.
  destruct (Z.leb_spec 0 (status p)) as [L|L];
    [destruct (Z.leb_spec (status p) 3) as [U|U]|]; cbn.
  - assert (C : status p = 0 ∨ status p = 1 ∨ status p = 2 ∨ status p = 3) by lia.
    destruct C as [E|[E|[E|E]]]; rewrite E;
      match goal with
      | |- context [Z.to_nat ?z] =>
          let n := eval vm_compute in (Z.to_nat z) in
          change (Z.to_nat z) with n
      end; cbn; repeat case_decide; try lia; repeat f_equal; lia.
  - repeat case_decide; try lia. repeat f_equal; lia.
  - repeat case_decide; try lia. repeat f_equal; lia.
Qed.

(** The update of a record [[total, c0, c1, c2, c3]]: [total] grows by one,
    and so does the bucket of a status in [0..3], and no other entry. *)
Lemma record_point_buckets (d : gmap string (list Z)) (fips : string) (s : Z)
    (total c0 c1 c2 c3 : Z) :
  d !! fips = Some [total; c0; c1; c2; c3] ∨
  (d !! fips = None ∧ [total; c0; c1; c2; c3] = [0; 0; 0; 0; 0]) →
  record_point d fips s =
  Ok (<[fips := [total + 1;
                 c0 + (if decide (s = 0) then 1 else 0);
                 c1 + (if decide (s = 1) then 1 else 0);
                 c2 + (if decide (s = 2) then 1 else 0);
                 c3 + (if decide (s = 3) then 1 else 0)]]> d).
Proof.
  intros Hd. unfold record_point.
  assert (V : match d !! fips with Some v => v | None => [0; 0; 0; 0; 0] end
              = [total; c0; c1; c2; c3]).
  { destruct Hd as [->|[-> E]]; [reflexivity|now rewrite E]. }
  rewrite V. clear V Hd. unfold increment. cbn.
  destruct (Z.leb_spec 0 s) as [L|L]; [destruct (Z.leb_spec s 3) as [U|U]|]; cbn.
  - assert (C : s = 0 ∨ s = 1 ∨ s = 2 ∨ s = 3) by lia.
    destruct C as [E|[E|[E|E]]]; rewrite E;
      match goal with
      | |- context [Z.to_nat ?z] =>
          let n := eval vm_compute in (Z.to_nat z) in
          change (Z.to_nat z) with n
      end; cbn; repeat case_decide; try lia; repeat f_equal; lia.
  - repeat case_decide; try lia. repeat f_equal; lia.
  - repeat case_decide; try lia. repeat f_equal; lia.
Qed.

(** ** The assignment loop *)

Section AssignLoop.
Context {G : Type} `{Shapely G}.
Variable county_shapes : list G.
Variable county_fips_list : list string.

Lemma hits_snoc_assigned (fips : string) (done : list (Q * Q * Z)) (p : Q * Q * Z) :
  resolve county_shapes county_fips_list p = Ok (Some fips) →
  hits county_shapes county_fips_list fips (done ++ [p])
  = hits county_shapes county_fips_list fips done ++ [p].
Proof.
  intros R. unfold hits. rewrite filter_app.
  now rewrite (filter_cons_True _ p []) by exact R.
Qed.

Lemma hits_snoc_other (fips : string) (done : list (Q * Q * Z)) (p : Q * Q * Z) :
  resolve county_shapes county_fips_list p ≠ Ok (Some fips) →
  hits county_shapes county_fips_list fips (done ++ [p])
  = hits county_shapes county_fips_list fips done.
Proof.
  intros R. unfold hits. rewrite filter_app.
  rewrite (filter_cons_False _ p []) by exact R. apply app_nil_r.
Qed.

Lemma assign_loop_app (st : tally) (l1 l2 : list (Q * Q * Z)) :
  assign_loop county_shapes county_fips_list st (l1 ++ l2)
  = (st' ← assign_loop county_shapes county_fips_list st l1;
     assign_loop county_shapes county_fips_list st' l2).
Proof.
  revert st. induction l1 as [|p l1 IH]; intros st; [reflexivity|].
  cbn. destruct (assign_step county_shapes county_fips_list st p) as [st1|e];
    cbn; [apply IH|reflexivity].
Qed.

Lemma invariant_init : loop_invariant county_shapes county_fips_list [] (Tally ∅ 0 0).
Proof.
  split; [|split; [|split]]; cbn; [|apply sum_of_totals_empty|reflexivity..].
  intros fips. apply lookup_empty.
Qed.

Lemma invariant_step (done : list (Q * Q * Z)) (st st' : tally) (p : Q * Q * Z) :
  loop_invariant county_shapes county_fips_list done st →
  assign_step county_shapes county_fips_list st p = Ok st' →
  loop_invariant county_shapes county_fips_list (done ++ [p]) st'.
Proof.
  intros (Hd & Hs & Hc & Hu). rewrite assign_step_resolve.
  destruct (resolve county_shapes county_fips_list p) as [[fips|]|e] eqn:R;
    cbn; [| |discriminate].
  - rewrite (record_point_expected _ fips _ p (Hd fips)). cbn.
    intros [= <-]. unfold loop_invariant. cbn [density assigned unassigned].
    split; [|split; [|split]].
    + intros f. destruct (decide (f = fips)) as [->|N].
      * rewrite lookup_insert_eq, hits_snoc_assigned by exact R.
        destruct (decide (_ ++ [p] = [])) as [E|_]; [|reflexivity].
        destruct (hits county_shapes county_fips_list fips done); discriminate E.
      * rewrite lookup_insert_ne by congruence.
        rewrite hits_snoc_other by (rewrite R; congruence). apply Hd.
    + specialize (Hd fips). rewrite <- Hs.
      destruct (decide (hits county_shapes county_fips_list fips done = [])) as [E|_].
      * rewrite sum_of_totals_insert_fresh by exact Hd. rewrite E. cbn. lia.
      * rewrite (sum_of_totals_insert _ _ _ _ Hd). cbn.
        rewrite length_app. cbn. lia.
    + rewrite length_app. cbn. lia.
    + rewrite filter_app, (filter_cons_False _ p []), app_nil_r; [exact Hu|].
      unfold left_unassigned. rewrite R. discriminate.
  - intros [= <-]. unfold loop_invariant. cbn [density assigned unassigned].
    split; [|split; [|split]].
    + intros f. rewrite hits_snoc_other by (rewrite R; discriminate). apply Hd.
    + exact Hs.
    + rewrite length_app. cbn. lia.
    + rewrite filter_app, (filter_cons_True _ p []) by exact R.
      rewrite length_app. cbn. lia.
Qed.

Lemma invariant_loop (rest : list (Q * Q * Z)) :
  ∀ done st st',
    loop_invariant county_shapes county_fips_list done st →
    assign_loop county_shapes county_fips_list st rest = Ok st' →
    loop_invariant county_shapes county_fips_list (done ++ rest) st'.
Proof.
  induction rest as [|p rest IH]; intros done st st' Inv L.
  - injection L as <-. now rewrite app_nil_r.
  - cbn in L.
    destruct (assign_step county_shapes county_fips_list st p) as [st1|e] eqn:S;
      [|discriminate].
    cbn in L. rewrite (cons_middle p done rest), app_assoc.
    apply (IH _ st1); [|exact L]. now apply invariant_step with st.
Qed.

Lemma invariant_final (points : list (Q * Q * Z)) (st : tally) :
  assign_loop county_shapes county_fips_list (Tally ∅ 0 0) points = Ok st →
  loop_invariant county_shapes county_fips_list points st.
Proof. intros L. exact (invariant_loop points [] _ _ invariant_init L). Qed.

(** The loop returns when every point has a candidate. *)
Lemma assign_loop_returns (rest : list (Q * Q * Z)) :
  ∀ done st,
    loop_invariant county_shapes county_fips_list done st →
    Forall (fun p => ∃ r, resolve county_shapes county_fips_list p = Ok r) rest →
    ∃ st', assign_loop county_shapes county_fips_list st rest = Ok st'.
Proof.
  induction rest as [|p rest IH]; intros done st Inv F; [now exists st|].
  apply Forall_cons in F as [[r R] F]. cbn.
  assert (S : ∃ st1, assign_step county_shapes county_fips_list st p = Ok st1).
  { rewrite assign_step_resolve, R. cbn. destruct r as [fips|]; [|eauto].
    destruct Inv as (Hd & _).
    rewrite (record_point_expected _ fips _ p (Hd fips)). cbn. eauto. }
  destruct S as [st1 S]. rewrite S. cbn.
  exact (IH (done ++ [p]) st1 (invariant_step _ _ _ _ Inv S) F).
Qed.

(** A run of points that are all left unassigned only moves [unassigned]. *)
Lemma assign_loop_unassigned (points : list (Q * Q * Z)) :
  ∀ st,
    Forall (left_unassigned county_shapes county_fips_list) points →
    assign_loop county_shapes county_fips_list st points
    = Ok (Tally (density st) (assigned st)
                (unassigned st + Z.of_nat (length points))).
Proof.
  induction points as [|p points IH]; intros st F.
  - cbn. destruct st. cbn. do 2 f_equal. lia.
  - apply Forall_cons in F as [R F]. cbn [assign_loop].
    rewrite assign_step_resolve, R. cbn [mbind result_bind].
    rewrite (IH _ F). cbn [density assigned unassigned length]. do 2 f_equal. lia.
Qed.

(** C7: after the loop over any point list, every county record is
    [[total, c0, c1, c2, c3]] with [total] the number of points assigned
    to the county and [ck] the number of those with status [k]; the update
    for one point adds one to [total] and, for a status in [0..3], to that
    status bucket alone; and the totals plus [unassigned] make the number
    of points. *)
Theorem histogram_counts (points : list (Q * Q * Z)) (st : tally) :
  assign_loop county_shapes county_fips_list (Tally ∅ 0 0) points = Ok st →
  (∀ fips v,
     density st !! fips = Some v →
     let hs := hits county_shapes county_fips_list fips points in
     v = [Z.of_nat (length hs);
          Z.of_nat (length (with_status 0 hs));
          Z.of_nat (length (with_status 1 hs));
          Z.of_nat (length (with_status 2 hs));
          Z.of_nat (length (with_status 3 hs))]) ∧
  (∀ d fips s total c0 c1 c2 c3,
     d !! fips = Some [total; c0; c1; c2; c3] ∨
     (d !! fips = None ∧ [total; c0; c1; c2; c3] = [0; 0; 0; 0; 0]) →
     record_point d fips s =
     Ok (<[fips := [total + 1;
                    c0 + (if decide (s = 0) then 1 else 0);
                    c1 + (if decide (s = 1) then 1 else 0);
                    c2 + (if decide (s = 2) then 1 else 0);
                    c3 + (if decide (s = 3) then 1 else 0)]]> d)) ∧
  sum_of_totals (density st) = assigned st ∧
  sum_of_totals (density st) + unassigned st = Z.of_nat (length points).
Proof.
  intros L. destruct (invariant_final points st L) as (Hd & Hs & Hc & _).
  split; [|split; [|split]].
  - intros fips v Hv. rewrite Hd in Hv.
    destruct (decide (_ = [])); [discriminate|].
    now injection Hv as <-.
  - intros. now apply record_point_buckets.
  - exact Hs.
  - lia.
Qed.

(** C9: a point that ends unassigned, processed after any points [done],
    adds one to [unassigned] and changes nothing else (from any state);
    and at any time a county has a record exactly when some processed
    point was assigned to it. *)
Theorem unassigned_point_frame (done : list (Q * Q * Z)) (st : tally)
    (p : Q * Q * Z) :
  assign_loop county_shapes county_fips_list (Tally ∅ 0 0) done = Ok st →
  resolve county_shapes county_fips_list p = Ok None →
  assign_loop county_shapes county_fips_list (Tally ∅ 0 0) (done ++ [p])
  = Ok (Tally (density st) (assigned st) (unassigned st + 1)) ∧
  (∀ st0, assign_step county_shapes county_fips_list st0 p
          = Ok (Tally (density st0) (assigned st0) (unassigned st0 + 1))) ∧
  (∀ fips,
     density st !! fips = None ↔ hits county_shapes county_fips_list fips done = []).
Proof.
  intros L R.
  assert (S : ∀ st0, assign_step county_shapes county_fips_list st0 p
                     = Ok (Tally (density st0) (assigned st0) (unassigned st0 + 1)))
    by (intros st0; now rewrite assign_step_resolve, R).
  split; [|split; [exact S|]].
  - rewrite assign_loop_app, L. cbn. now rewrite S.
  - intros fips. destruct (invariant_final done st L) as (Hd & _).
    rewrite Hd. destruct (decide (_ = [])); split; congruence.
Qed.
End AssignLoop.

(** The histogram of [sample_points] over the two square counties. *)
Lemma histogram_counts_example :
  ∃ st,
    assign_loop [square_box; square_box2] ["01001"; "01003"] (Tally ∅ 0 0)
                sample_points = Ok st ∧
    density st !! "01001" = Some [2; 1; 1; 0; 0] ∧
    density st !! "01003" = Some [2; 0; 0; 0; 1] ∧
    sum_of_totals (density st) + unassigned st = 5.
Proof.
  destruct (assign_loop [square_box; square_box2] ["01001"; "01003"] (Tally ∅ 0 0)
                        sample_points) as [st|e] eqn:L;
    [|exfalso; vm_compute in L; discriminate L].
  exists st. split; [reflexivity|].
  destruct (histogram_counts _ _ _ st L) as (Hv & _ & _ & Hs).
  assert (E : is_Some (density st !! "01001") ∧ is_Some (density st !! "01003")).
  { clear Hv Hs. vm_compute in L. injection L as <-. split; vm_compute; eauto. }
  destruct E as [[v1 E1] [v2 E2]].
  rewrite E1, E2, (Hv _ v1 E1), (Hv _ v2 E2).
  split; [|split; [|exact Hs]]; vm_compute; reflexivity.
Defined.

(** After [centre_point], the point [(20, 20)] only moves [unassigned], and
    the second county has no record. *)
Lemma unassigned_point_frame_example :
  ∃ st,
    assign_loop [square_box; square_box2] ["01001"; "01003"] (Tally ∅ 0 0)
                [centre_point] = Ok st ∧
    resolve [square_box; square_box2] ["01001"; "01003"] far_point = Ok None ∧
    assign_loop [square_box; square_box2] ["01001"; "01003"] (Tally ∅ 0 0)
                [centre_point; far_point]
    = Ok (Tally (density st) (assigned st) (unassigned st + 1)) ∧
    density st !! "01003" = None.
Proof.
  destruct (assign_loop [square_box; square_box2] ["01001"; "01003"] (Tally ∅ 0 0)
                        [centre_point]) as [st|e] eqn:L;
    [|exfalso; vm_compute in L; discriminate L].
  exists st. split; [reflexivity|].
  assert (R : resolve [square_box; square_box2] ["01001"; "01003"] far_point
              = Ok None) by (vm_compute; reflexivity).
  split; [exact R|].
  destruct (unassigned_point_frame _ _ [centre_point] st far_point L R)
    as (F & _ & D).
  split; [exact F|]. apply D. vm_compute. reflexivity.
Defined.

(** ** The run *)

Lemma stats_empty : stats ∅ = Raise ValueError.
Proof. unfold stats. now rewrite map_to_list_empty. Qed.

(** When no point is assigned the histogram stays empty, and [max(totals)]
    raises [ValueError] on the empty list. *)
Lemma main_without_assignment `{Shapely G} (topo : topology)
    (points : list (Q * Q * Z)) (features : list feature) :
  topojson_to_geojson_features topo "counties" = Ok features →
  Forall (left_unassigned (build_shapes features).1 (build_shapes features).2)
         points →
  main topo points = Raise ValueError.
Proof.
  intros F U. unfold main. rewrite F. cbn [mbind result_bind].
  destruct (build_shapes features) as [county_shapes county_fips_list].
  cbn [fst snd] in U. rewrite (assign_loop_unassigned _ _ _ _ U).
  cbn [mbind result_bind density]. now rewrite stats_empty.
Qed.

Lemma mapM_returns {A B} (f : A → result B) (l : list A) :
  Forall (fun x => ∃ y, f x = Ok y) l →
  ∃ ys, mapM f l = Ok ys ∧ length ys = length l.
Proof.
  induction 1 as [|x l [y Hy] _ (ys & M & Len)]; [now exists []|].
  exists (y :: ys). cbn. rewrite Hy. cbn. rewrite M. cbn. now rewrite Len.
Qed.

(** The statistics are computed on every histogram that is not empty and
    whose records are not. *)
Lemma stats_returns (d : gmap string (list Z)) :
  d ≠ ∅ → (∀ fips v, d !! fips = Some v → v ≠ []) →
  ∃ m median, stats d = Ok (m, median).
Proof.
  intros Hne Hrec. unfold stats.
  destruct (mapM_returns (fun v : list Z => index v 0) (snd <$> map_to_list d))
    as (totals & M & Len).
  { apply Forall_forall. intros v Hv.
    apply list_elem_of_fmap in Hv as ([fips v'] & -> & Hin).
    apply elem_of_map_to_list in Hin. specialize (Hrec _ _ Hin). cbn.
    destruct v' as [|t rest]; [congruence|]. now exists t. }
  rewrite M. cbn [mbind result_bind].
  rewrite length_fmap, length_map_to_list in Len.
  assert (Hsize : size d ≠ 0%nat) by now apply map_size_non_empty_iff.
  destruct totals as [|t totals]; [cbn in Len; congruence|].
  cbn [py_max mbind result_bind].
  destruct (merge_sort Z.le (t :: totals) !! (length (t :: totals) / 2)%nat)
    as [median|] eqn:Med.
  - rewrite (index_lookup _ _ _ Med). cbn. eauto.
  - exfalso. apply lookup_ge_None in Med.
    rewrite (Permutation_length (merge_sort_Permutation Z.le (t :: totals))) in Med.
    pose proof (Nat.div_lt (length (t :: totals)) 2) as D. cbn [length] in *. lia.
Qed.

(** The run reaches its end when the topology converts, every point has a
    candidate and some point is assigned; it then reports counts that add up
    to the number of points. *)
Lemma main_returns `{Shapely G} (topo : topology) (points : list (Q * Q * Z))
    (features : list feature) (p : Q * Q * Z) (fips : string) :
  topojson_to_geojson_features topo "counties" = Ok features →
  Forall (fun p => ∃ r, resolve (build_shapes features).1 (build_shapes features).2 p
                        = Ok r) points →
  p ∈ points →
  resolve (build_shapes features).1 (build_shapes features).2 p = Ok (Some fips) →
  ∃ r, main topo points = Ok r ∧
       pharmacies_loaded r = length points ∧
       county_polygons r = length features ∧
       reported_assigned r + reported_unassigned r = Z.of_nat (length points) ∧
       is_Some (county_density r !! fips).
Proof.
  intros F Hall Hin Hp. unfold main. rewrite F. cbn [mbind result_bind].
  destruct (build_shapes features) as [county_shapes county_fips_list].
  cbn [fst snd] in Hall, Hp.
  destruct (assign_loop_returns county_shapes county_fips_list points [] _
              (invariant_init _ _) Hall) as [st L].
  rewrite L. cbn [mbind result_bind].
  destruct (invariant_final _ _ _ _ L) as (Hd & _ & Hc & _).
  assert (Hf : density st !! fips
               = Some (expected_record (hits county_shapes county_fips_list fips points))).
  { rewrite Hd. destruct (decide (_ = [])) as [E|_]; [|reflexivity].
    exfalso. refine (filter_nil_not_elem_of _ _ p E _ Hin). exact Hp. }
  destruct (stats_returns (density st)) as (m & median & S).
  - intros E. rewrite E, lookup_empty in Hf. discriminate Hf.
  - intros f v Hv. rewrite Hd in Hv.
    destruct (decide (_ = [])); [discriminate|]. now injection Hv as <-.
  - rewrite S. cbn. eexists. split; [reflexivity|]. cbn.
    repeat split; [exact Hc|]. rewrite Hf. eauto.
Qed.

(** C5 fails on the code: over the two square counties, whatever the
    geometry library, the run on the empty point list ends with
    [ValueError] instead of a report; so does, with the rectangle kernel,
    the run on one point that no county accepts. *)
Theorem empty_histogram_crashes :
  (∀ (G : Type) (K : Shapely G), @main G K two_counties [] = Raise ValueError) ∧
  main (G := Rect.box) two_counties [far_point] = Raise ValueError.
Proof.
  split.
  - intros G K.
    destruct (topojson_to_geojson_features two_counties "counties")
      as [features|e] eqn:F; [|vm_compute in F; discriminate F].
    apply (main_without_assignment two_counties [] features F). constructor.
  - vm_compute. reflexivity.
Qed.

(** ** The keys of the histogram *)

Lemma length_append (s1 s2 : string) :
  String.length (s1 +:+ s2) = (String.length s1 + String.length s2)%nat.
Proof.
  induction s1 as [|c s1 IH]; [reflexivity|].
  change (String c s1 +:+ s2) with (String c (s1 +:+ s2)).
  cbn [String.length]. now rewrite IH.
Qed.

Lemma length_zeros (n : nat) : String.length (zeros n) = n.
Proof. induction n as [|n IH]; cbn; [reflexivity|f_equal; exact IH]. Qed.

Lemma zfill_length (width : nat) (s : string) :
  String.length (zfill width s) = Nat.max width (String.length s).
Proof.
  unfold zfill. destruct (Nat.leb_spec width (String.length s)) as [L|L]; [lia|].
  destruct s as [|c rest]; [rewrite length_zeros; cbn; lia|].
  destruct (is_sign c); cbn [String.length] in *;
    rewrite length_append, length_zeros; cbn [String.length]; lia.
Qed.

Section Keys.
Context {G : Type} `{Shapely G}.

Lemma resolve_in_fips (county_shapes : list G) (county_fips_list : list string)
    (p : Q * Q * Z) (fips : string) :
  resolve county_shapes county_fips_list p = Ok (Some fips) →
  fips ∈ county_fips_list.
Proof.
  destruct p as [[lon lat] s]. unfold resolve.
  destruct (nearest_index county_shapes (lon, lat)) as [idx|]; cbn; [|discriminate].
  destruct (index county_shapes idx) as [g|]; cbn; [|discriminate].
  destruct (accepts g (lon, lat)); [|discriminate].
  unfold index. destruct (county_fips_list !! idx) as [f|] eqn:E; cbn; [|discriminate].
  intros [= <-]. exact (list_elem_of_lookup_2 _ _ _ E).
Qed.

Lemma build_shapes_fips (features : list feature) (fips : string) :
  fips ∈ (build_shapes features).2 →
  ∃ feat geom,
    feat ∈ features ∧ shape (feat_geometry feat) = Some geom ∧
    is_valid geom = true ∧ fips = zfill 5 (py_str (feat_id feat)).
Proof.
  induction features as [|feat rest IH]; cbn; [intros E; inversion E|].
  destruct (build_shapes rest) as [shapes fs]. cbn [snd] in IH.
  assert (Rest : fips ∈ fs →
                 ∃ feat0 geom, feat0 ∈ feat :: rest ∧
                   shape (feat_geometry feat0) = Some geom ∧
                   is_valid geom = true ∧ fips = zfill 5 (py_str (feat_id feat0))).
  { intros E. destruct (IH E) as (f & g & Hin & Hrest).
    exists f, g. split; [now apply elem_of_cons; right|exact Hrest]. }
  destruct (shape (feat_geometry feat)) as [geom|] eqn:S; [|exact Rest].
  destruct (is_valid geom) eqn:V; [|exact Rest].
  cbn [snd]. intros E. apply elem_of_cons in E as [->|E]; [|now apply Rest].
  exists feat, geom. split; [apply elem_of_cons; now left|auto].
Qed.

Lemma build_shapes_length (features : list feature) :
  length (build_shapes features).1 = length (build_shapes features).2.
Proof.
  induction features as [|feat rest IH]; [reflexivity|]. cbn.
  destruct (build_shapes rest) as [shapes fs]. cbn [fst snd] in IH.
  destruct (shape (feat_geometry feat)) as [geom|]; [|exact IH].
  destruct (is_valid geom); [cbn; now rewrite IH|exact IH].
Qed.

Lemma features_of_geometries (topo : topology) (geometries : list geometry)
    (features : list feature) (feat : feature) :
  features_loop topo geometries = Ok features → feat ∈ features →
  ∃ geom,
    geom ∈ geometries ∧ recognized geom = true ∧ feat_id feat = geom_id geom.
Proof.
  intros L Hin. apply features_loop_ids in L.
  apply (list_elem_of_fmap_2 feat_id) in Hin. rewrite L in Hin.
  apply list_elem_of_fmap in Hin as (g & E & Hg).
  apply list_elem_of_filter in Hg as [R Hg]. now exists g.
Qed.

(** C10, amended: every key of the written histogram is
    [str(id).zfill(5)] for the identifier of a polygon or multi-polygon
    that passed validation, whatever the identifier (a string, an
    integer, or none); it has five characters or more, and exactly five
    when [str(id)] has at most five. *)
Theorem fips_keys_zfill (topo : topology) (points : list (Q * Q * Z))
    (r : report) (fips : string) :
  main topo points = Ok r →
  is_Some (county_density r !! fips) →
  ∃ geometries geom features feat shp,
    topo_objects topo !! "counties" = Some geometries ∧
    geom ∈ geometries ∧ recognized geom = true ∧
    topojson_to_geojson_features topo "counties" = Ok features ∧
    feat ∈ features ∧ feat_id feat = geom_id geom ∧
    shape (feat_geometry feat) = Some shp ∧ is_valid shp = true ∧
    fips = zfill 5 (py_str (geom_id geom)) ∧
    String.length fips = Nat.max 5 (String.length (py_str (geom_id geom))).
Proof.
  unfold main. intros M [v Hv].
  destruct (topojson_to_geojson_features topo "counties") as [features|e] eqn:F;
    [|discriminate]. cbn [mbind result_bind] in M.
  destruct (build_shapes features) as [county_shapes county_fips_list] eqn:B.
  destruct (assign_loop county_shapes county_fips_list (Tally ∅ 0 0) points)
    as [st|e] eqn:L; [|discriminate]. cbn [mbind result_bind] in M.
  destruct (stats (density st)) as [[m median]|e]; [|discriminate].
  injection M as <-. cbn [county_density] in Hv.
  destruct (invariant_final _ _ _ _ L) as (Hd & _). rewrite Hd in Hv.
  destruct (decide (hits county_shapes county_fips_list fips points = []))
    as [|Hne]; [discriminate|].
  destruct (hits county_shapes county_fips_list fips points) as [|p hs] eqn:Hh;
    [congruence|].
  assert (Hp : p ∈ hits county_shapes county_fips_list fips points)
    by (rewrite Hh; apply elem_of_cons; now left).
  apply list_elem_of_filter in Hp as [Hp _].
  apply resolve_in_fips in Hp.
  assert (Hp' : fips ∈ (build_shapes features).2) by now rewrite B.
  apply build_shapes_fips in Hp' as (feat & shp & Hfeat & Hshape & Hvalid & ->).
  unfold topojson_to_geojson_features in F.
  destruct (topo_objects topo !! "counties") as [geometries|] eqn:O; [|discriminate].
  destruct (features_of_geometries topo geometries features feat F Hfeat)
    as (geom & Hgeom & Hrec & Hid).
  exists geometries, geom, features, feat, shp. rewrite <- Hid.
  repeat split; try assumption. apply zfill_length.
Qed.
End Keys.

(** C10, as stated, fails: a county whose identifier is ["0500000US01001"]
    gets that identifier, fourteen characters long, as its key. *)
Lemma long_identifier_key :
  ∃ r, main (G := Rect.box) geoid_county [centre_point] = Ok r ∧
       county_density r !! "0500000US01001" = Some [1; 1; 0; 0; 0] ∧
       String.length "0500000US01001" ≠ 5%nat.
Proof.
  eexists. split; [vm_compute; reflexivity|].
  split; [vm_compute; reflexivity|discriminate].
Qed.

(** The keys of the run over the two square counties: the integer
    identifier [1001] gives ["01001"]. *)
Lemma fips_keys_zfill_example :
  ∃ r, main (G := Rect.box) two_counties sample_points = Ok r ∧
       county_density r !! "01001" = Some [2; 1; 1; 0; 0] ∧
       ∃ geom,
         geom ∈ [polygon (IdInt 1001) [[0]]; polygon (IdStr "01003") [[1]]] ∧
         "01001" = zfill 5 (py_str (geom_id geom)) ∧
         String.length "01001"
         = Nat.max 5 (String.length (py_str (geom_id geom))).
Proof.
  destruct (main (G := Rect.box) two_counties sample_points) as [r|e] eqn:M;
    [|exfalso; vm_compute in M; discriminate M].
  exists r. split; [reflexivity|].
  assert (E : county_density r !! "01001" = Some [2; 1; 1; 0; 0]).
  { pose proof M as M'. vm_compute in M'. injection M' as <-.
    vm_compute. reflexivity. }
  split; [exact E|].
  destruct (fips_keys_zfill two_counties sample_points r "01001" M
              (ex_intro _ _ E))
    as (geometries & geom & features & feat & shp & O & Hg & _ & _ & _ & _ & _ & _
        & Hk & Hl).
  injection O as <-. exists geom.
  split; [exact Hg|]. split; [exact Hk|exact Hl].
Defined.

(** ** The skipped geometries leave no trace *)

(** The county alone and the county after a geometry of type ["Point"]
    convert to the same features and give the same report, although one
    geometry is skipped in the second and none in the first. *)
Lemma same_run_with_skipped_geometry :
  skipped_geometries one_county = 0%nat ∧
  skipped_geometries point_and_county = 1%nat ∧
  topojson_to_geojson_features point_and_county "counties"
  = topojson_to_geojson_features one_county "counties" ∧
  ∃ r, main (G := Rect.box) one_county [centre_point] = Ok r ∧
       main (G := Rect.box) point_and_county [centre_point] = Ok r.
Proof.
  split; [vm_compute; reflexivity|]. split; [vm_compute; reflexivity|].
  split; [vm_compute; reflexivity|].
  eexists. split; vm_compute; reflexivity.
Qed.

(** C6, as stated, fails in its last part: the skipped geometries are not
    counted, and nothing the conversion returns or the run reports tells
    their number. *)
Lemma skipped_count_not_reported :
  (¬ ∃ count : result (list feature) → nat,
       ∀ topo, count (topojson_to_geojson_features topo "counties")
               = skipped_geometries topo) ∧
  (¬ ∃ count : result report → nat,
       ∀ topo points, count (main (G := Rect.box) topo points)
                      = skipped_geometries topo).
Proof.
  destruct same_run_with_skipped_geometry as (S0 & S1 & F & r & M0 & M1).
  split; intros [count C].
  - pose proof (C one_county) as C0. pose proof (C point_and_county) as C1.
    rewrite F, C0, S0 in C1. rewrite S1 in C1. discriminate C1.
  - pose proof (C one_county [centre_point]) as C0.
    pose proof (C point_and_county [centre_point]) as C1.
    rewrite M0 in C0. rewrite M1, C0, S0, S1 in C1. discriminate C1.
Qed.

(** * Further properties of the decoder *)


(** * Further properties of the ring assembler *)

Lemma ring_loop_content (topo : topology) (refs : list Z) :
  ∀ (decoded : list (list coord)) (coords : list coord),
    mapM (decode_arc topo) refs = Ok decoded →
    coords ≠ [] →
    ring_loop topo coords (Ref <$> refs) = Ok (coords ++ concat (tail <$> decoded)).
Proof.
  induction refs as [|r rest IH]; intros decoded coords Hm Hc.
  - injection Hm as <-. cbn. now rewrite app_nil_r.
  - cbn in Hm. cbn [fmap list_fmap ring_loop decode_arc_json].
    destruct (decode_arc topo r) as [a|e]; [|discriminate]. cbn in Hm |- *.
    destruct (mapM (decode_arc topo) rest) as [tl|e]; [|discriminate].
    injection Hm as <-.
    destruct coords as [|c coords]; [congruence|].
    rewrite (IH tl ((c :: coords) ++ tail a) eq_refl) by discriminate.
    cbn. now rewrite <- !app_assoc.
Qed.

Lemma decode_ring_stitch (topo : topology) (r : Z) (refs : list Z)
    (a : list coord) (rest : list (list coord)) :
  mapM (decode_arc topo) (r :: refs) = Ok (a :: rest) →
  a ≠ [] →
  decode_ring topo (Arr (Ref <$> r :: refs)) = Ok (a ++ concat (tail <$> rest)).
Proof.
  intros Hm Ha. unfold decode_ring. cbn [iterate mbind result_bind].
  cbn in Hm. cbn [fmap list_fmap ring_loop decode_arc_json].
  destruct (decode_arc topo r) as [a'|e]; [|discriminate]. cbn in Hm |- *.
  destruct (mapM (decode_arc topo) refs) as [tl|e] eqn:Htl; [|discriminate].
  injection Hm as -> ->.
  now apply ring_loop_content.
Qed.

(** X3: a ring whose first arc is not empty is that arc followed by the
    other arcs without their first coordinates, in order; a ring of one arc
    is the arc itself. *)
Theorem decode_ring_content (topo : topology) (r : Z) (refs : list Z)
    (a : list coord) (rest : list (list coord)) :
  mapM (decode_arc topo) (r :: refs) = Ok (a :: rest) →
  a ≠ [] →
  decode_ring topo (Arr (Ref <$> r :: refs)) = Ok (a ++ concat (tail <$> rest)) ∧
  (refs = [] → decode_ring topo (Arr [Ref r]) = Ok a).
Proof.
  intros Hm Ha. pose proof (decode_ring_stitch topo r refs a rest Hm Ha) as S.
  split; [exact S|]. intros ->. cbn in Hm.
  destruct (decode_arc topo r); [|discriminate]. injection Hm as -> <-.
  cbn in S. now rewrite app_nil_r in S.
Qed.

(** The two halves of the unit square make the closed ring
    [[0,0],[1,0],[1,1],[0,1],[0,0]]. *)
Lemma decode_ring_content_example :
  decode_ring (topology_of [arc_first_half; arc_second_half] None [])
              (Arr [Ref 0; Ref 1])
  = Ok [(q 0, q 0); (q 1, q 0); (q 1, q 1); (q 0, q 1); (q 0, q 0)].
Proof.
  apply (decode_ring_content
           (topology_of [arc_first_half; arc_second_half] None []) 0 [1]
           arc_first_half [arc_second_half] eq_refl).
  discriminate.
Defined.

Lemma last_concat_tails (rest : list (list coord)) (z : list coord) :
  last rest = Some z → (2 <= length z)%nat →
  last (concat (tail <$> rest)) = last z ∧ is_Some (last z).
Proof.
  intros Hz Hlen. apply last_Some in Hz as [front ->].
  rewrite fmap_app, concat_app. cbn. rewrite app_nil_r.
  destruct z as [|z0 [|z1 z]]; cbn in Hlen; [lia..|].
  cbn [tail]. rewrite last_app, last_cons_cons.
  assert (S : is_Some (last (z1 :: z))) by now apply last_is_Some.
  destruct S as [y ->]. eauto.
Qed.

(** X4: such a ring starts where its first arc starts and, when its last
    arc has two coordinates or more, ends where that arc ends; so it is
    closed as soon as these two coordinates coincide. *)
Theorem decode_ring_endpoints (topo : topology) (r : Z) (refs : list Z)
    (a z : list coord) (rest : list (list coord)) :
  mapM (decode_arc topo) (r :: refs) = Ok (a :: rest) →
  a ≠ [] →
  last (a :: rest) = Some z →
  (2 <= length z)%nat →
  ∃ ring,
    decode_ring topo (Arr (Ref <$> r :: refs)) = Ok ring ∧
    head ring = head a ∧ last ring = last z ∧
    (head a = last z → head ring = last ring).
Proof.
  intros Hm Ha Hz Hlen.
  exists (a ++ concat (tail <$> rest)).
  split; [now apply decode_ring_stitch|].
  assert (Hh : head (a ++ concat (tail <$> rest)) = head a)
    by (destruct a; [congruence|reflexivity]).
  assert (Hl : last (a ++ concat (tail <$> rest)) = last z).
  { destruct rest as [|b rest].
    - cbn in Hz. injection Hz as ->. cbn. now rewrite app_nil_r.
    - rewrite last_cons_cons in Hz.
      destruct (last_concat_tails _ z Hz Hlen) as [L [y Hy]].
      now rewrite last_app, L, Hy. }
  split; [exact Hh|]. split; [exact Hl|]. intros E. now rewrite Hh, Hl.
Qed.

(** The ring of the two halves of the unit square is closed. *)
Lemma decode_ring_endpoints_example :
  ∃ ring,
    decode_ring (topology_of [arc_first_half; arc_second_half] None [])
                (Arr [Ref 0; Ref 1]) = Ok ring ∧
    head ring = Some (q 0, q 0) ∧ last ring = Some (q 0, q 0).
Proof.
  destruct (decode_ring_endpoints
              (topology_of [arc_first_half; arc_second_half] None []) 0 [1]
              arc_first_half arc_second_half [arc_second_half] eq_refl)
    as (ring & R & Hh & Hl & _); [discriminate|reflexivity|cbn; lia|].
  exists ring. split; [exact R|]. split; [exact Hh|exact Hl].
Defined.

(** * Rings traversed backwards *)

Lemma decode_arc_lnot (topo : topology) (r : Z) :
  decode_arc topo (Z.lnot r) = rev (A:=coord) <$> decode_arc topo r.
Proof.
  unfold decode_arc.
  destruct (Z.ltb_spec r 0) as [Hr|Hr];
    destruct (Z.ltb_spec (Z.lnot r) 0) as [Hn|Hn];
    try (unfold Z.lnot in Hn; lia).
  - destruct (index (topo_arcs topo) (Z.to_nat (Z.lnot r))); cbn; [|reflexivity].
    now rewrite rev_involutive.
  - replace (Z.lnot (Z.lnot r)) with r by (unfold Z.lnot; lia).
    destruct (index (topo_arcs topo) (Z.to_nat r)); reflexivity.
Qed.

Lemma mapM_app_ok {A B} (f : A → result B) (l1 l2 : list A) (y1 y2 : list B) :
  mapM f l1 = Ok y1 → mapM f l2 = Ok y2 → mapM f (l1 ++ l2) = Ok (y1 ++ y2).
Proof.
  revert y1. induction l1 as [|x l1 IH]; intros y1 H1 H2.
  - now injection H1 as <-.
  - cbn in H1 |- *. destruct (f x) as [y|]; [|discriminate]. cbn in H1 |- *.
    destruct (mapM f l1) as [k|]; [|discriminate]. injection H1 as <-.
    now rewrite (IH k eq_refl H2).
Qed.

Lemma mapM_reversed_refs (topo : topology) (refs : list Z)
    (decoded : list (list coord)) :
  mapM (decode_arc topo) refs = Ok decoded →
  mapM (decode_arc topo) (Z.lnot <$> rev refs)
  = Ok (rev (A:=coord) <$> rev decoded).
Proof.
  revert decoded. induction refs as [|r refs IH]; intros decoded Hm.
  - now injection Hm as <-.
  - cbn in Hm. destruct (decode_arc topo r) as [a|] eqn:D; [|discriminate].
    cbn in Hm. destruct (mapM (decode_arc topo) refs) as [tl|]; [|discriminate].
    injection Hm as <-. cbn [rev]. rewrite !fmap_app.
    apply mapM_app_ok; [now apply IH|].
    cbn. now rewrite decode_arc_lnot, D.
Qed.

Lemma rev_last_first (a : list coord) (c : coord) :
  last a = Some c → rev a = c :: tail (rev a).
Proof. intros L. apply last_Some in L as [front ->]. now rewrite rev_unit. Qed.

Lemma chained_head_nonempty (a : list coord) (rest : list (list coord)) :
  chained (a :: rest) → a ≠ [].
Proof.
  destruct rest as [|b rest]; cbn; [tauto|].
  intros [(c & L & _) _] ->. discriminate L.
Qed.

Lemma stitch_snoc (arcs : list (list coord)) (a : list coord) :
  arcs ≠ [] → stitch (arcs ++ [a]) = stitch arcs ++ tail a.
Proof.
  destruct arcs as [|b arcs]; [congruence|]. intros _. cbn.
  rewrite fmap_app, concat_app. cbn. now rewrite app_nil_r, app_assoc.
Qed.

(** Stitching the reversed arcs in reverse order gives the reversed
    stitching, when each arc ends where the next one starts. *)
Lemma stitch_reversed (arcs : list (list coord)) :
  chained arcs → stitch (rev (A:=coord) <$> rev arcs) = rev (stitch arcs).
Proof.
  induction arcs as [|a rest IH]; [reflexivity|]. intros C.
  destruct rest as [|b rest].
  - cbn. now rewrite !app_nil_r.
  - destruct C as [(c & La & Hb) C]. specialize (IH C).
    change (rev (a :: b :: rest)) with (rev (b :: rest) ++ [a]).
    rewrite fmap_app. cbn [fmap list_fmap].
    rewrite stitch_snoc, IH.
    + destruct b as [|b0 b]; [discriminate Hb|]. injection Hb as ->.
      change (stitch (a :: (c :: b) :: rest))
        with (a ++ (b ++ concat (tail <$> rest))).
      change (stitch ((c :: b) :: rest)) with (c :: (b ++ concat (tail <$> rest))).
      cbn [rev]. rewrite (rev_app_distr a), <- app_assoc. cbn [app].
      f_equal. symmetry. now apply rev_last_first.
    + cbn [rev]. rewrite fmap_app. intros E. now apply app_eq_nil in E as [_ E].
Qed.

Lemma decode_ring_stitched (topo : topology) (refs : list Z)
    (decoded : list (list coord)) :
  mapM (decode_arc topo) refs = Ok decoded →
  (∀ a rest, decoded = a :: rest → a ≠ []) →
  decode_ring topo (Arr (Ref <$> refs)) = Ok (stitch decoded).
Proof.
  intros Hm Hne. destruct refs as [|r refs].
  - injection Hm as <-. reflexivity.
  - destruct decoded as [|a rest].
    + cbn in Hm. destruct (decode_arc topo r); [|discriminate]. cbn in Hm.
      destruct (mapM (decode_arc topo) refs); discriminate.
    + apply decode_ring_stitch; [exact Hm|]. now apply (Hne a rest).
Qed.

(** X5: when each arc of a ring ends where the next one starts, the ring
    made of the complemented references in reverse order
    ([[~r for r in reversed(refs)]]) is the same ring traversed backwards. *)
Theorem decode_ring_reversed (topo : topology) (refs : list Z)
    (decoded : list (list coord)) :
  mapM (decode_arc topo) refs = Ok decoded →
  chained decoded →
  ∃ ring,
    decode_ring topo (Arr (Ref <$> refs)) = Ok ring ∧
    decode_ring topo (Arr (Ref <$> (Z.lnot <$> rev refs))) = Ok (rev ring).
Proof.
  intros Hm C. exists (stitch decoded). split.
  - apply decode_ring_stitched; [exact Hm|].
    intros a rest ->. now apply chained_head_nonempty with rest.
  - rewrite <- (stitch_reversed decoded C).
    apply decode_ring_stitched; [now apply mapM_reversed_refs|].
    intros a rest E. destruct decoded as [|d decoded] using rev_ind.
    + discriminate E.
    + rewrite rev_unit in E. cbn in E. injection E as <- _.
      intros R. apply (f_equal (@rev coord)) in R. rewrite rev_involutive in R.
      subst d. clear IHdecoded Hm.
      induction decoded as [|x decoded IH]; [now cbn in C|].
      destruct decoded as [|y decoded]; cbn in C.
      * destruct C as [(c & _ & Hc) _]. discriminate Hc.
      * apply IH. exact (proj2 C).
Qed.

(** The unit square from its two halves, and backwards from the references
    [[-2, -1]]. *)
Lemma decode_ring_reversed_example :
  decode_ring (topology_of [arc_first_half; arc_second_half] None [])
              (Arr [Ref 0; Ref 1])
  = Ok [(q 0, q 0); (q 1, q 0); (q 1, q 1); (q 0, q 1); (q 0, q 0)] ∧
  decode_ring (topology_of [arc_first_half; arc_second_half] None [])
              (Arr [Ref (-2); Ref (-1)])
  = Ok [(q 0, q 0); (q 0, q 1); (q 1, q 1); (q 1, q 0); (q 0, q 0)].
Proof.
  destruct (decode_ring_reversed
              (topology_of [arc_first_half; arc_second_half] None []) [0; 1]
              [arc_first_half; arc_second_half] eq_refl)
    as (ring & R & B).
  - cbn. split; [|discriminate]. exists (q 1, q 1). now split.
  - assert (E : ring = [(q 0, q 0); (q 1, q 0); (q 1, q 1); (q 0, q 1); (q 0, q 0)]).
    { vm_compute in R. now injection R as <-. }
    rewrite E in R, B. split; [exact R|exact B].
Defined.

(** * When the conversion returns *)







(** * The county lists *)

Section CountyLists.
Context {G : Type} `{Shapely G}.

(** X7: [county_shapes] and [county_fips_list] are built in step: they hold,
    in order, the geometry and the key of each feature that Shapely builds
    and finds valid, and of no other; so the two lists have the same length
    and the key looked up for a candidate index is there whenever the
    geometry is. *)
Theorem build_shapes_aligned (features : list feature) :
  let county_shapes := (build_shapes features).1 in
  let county_fips_list := (build_shapes features).2 in
  let valid := filter (fun feat => kept feat = true) features in
  county_fips_list = feature_key <$> valid ∧
  Some <$> county_shapes = (fun feat => shape (feat_geometry feat)) <$> valid ∧
  Forall (fun geom => is_valid geom = true) county_shapes ∧
  length county_shapes = length county_fips_list ∧
  (∀ i geom, county_shapes !! i = Some geom →
             ∃ fips, index county_fips_list i = Ok fips).
Proof.
  cbn zeta.
  assert (A : (build_shapes features).2
              = feature_key <$> filter (fun feat => kept feat = true) features ∧
              Some <$> (build_shapes features).1
              = (fun feat => shape (feat_geometry feat))
                  <$> filter (fun feat => kept feat = true) features ∧
              Forall (fun geom => is_valid geom = true) (build_shapes features).1).
  { induction features as [|feat rest (IHf & IHs & IHv)]; [now repeat split|].
    cbn [build_shapes]. destruct (build_shapes rest) as [shapes fips].
    cbn [fst snd] in *.
    destruct (shape (feat_geometry feat)) as [geom|] eqn:S;
      [destruct (is_valid geom) eqn:V|].
    - assert (K : kept feat = true) by (unfold kept; now rewrite S).
      rewrite filter_cons_True by exact K. rewrite !fmap_cons, S. cbn [fst snd].
      split; [now rewrite IHf|]. split; [now rewrite fmap_cons, IHs|].
      now constructor.
    - assert (K : kept feat ≠ true) by (unfold kept; rewrite S; congruence).
      rewrite filter_cons_False by exact K. now repeat split.
    - assert (K : kept feat ≠ true) by (unfold kept; rewrite S; congruence).
      rewrite filter_cons_False by exact K. now repeat split. }
  destruct A as (Hf & Hs & Hv).
  assert (Len : length (build_shapes features).1 = length (build_shapes features).2).
  { rewrite Hf, length_fmap, <- (length_fmap Some), Hs. now rewrite length_fmap. }
  repeat split; try assumption.
  intros i geom Hi. apply lookup_lt_Some in Hi. rewrite Len in Hi.
  apply lookup_lt_is_Some in Hi as [fips Hfips]. exists fips.
  now apply index_lookup.
Qed.

(** X8: when no feature gives a valid geometry the run never reaches its
    end: with a point to assign, the candidate lookup raises [IndexError]
    whatever [query_nearest] answers on the empty index, and with no point
    the statistics raise [ValueError]. *)
Theorem no_valid_county_no_report (topo : topology) (points : list (Q * Q * Z))
    (features : list feature) :
  topojson_to_geojson_features topo "counties" = Ok features →
  Forall (fun feat => kept feat = false) features →
  (points ≠ [] → main topo points = Raise IndexError) ∧
  (points = [] → main topo points = Raise ValueError) ∧
  ¬ ∃ r, main topo points = Ok r.
Proof.
  intros F K.
  assert (B : build_shapes features = ([], [])).
  { clear F. induction K as [|feat rest Hk _ IH]; [reflexivity|].
    cbn. rewrite IH. unfold kept in Hk.
    destruct (shape (feat_geometry feat)) as [geom|]; [|reflexivity].
    now rewrite Hk. }
  assert (P : points ≠ [] → main topo points = Raise IndexError).
  { intros Hp. unfold main. rewrite F. cbn [mbind result_bind]. rewrite B.
    destruct points as [|[[lon lat] s] points]; [congruence|].
    cbn [assign_loop]. unfold assign_step, nearest_index, index.
    destruct (query_nearest [] (lon, lat)) as [i|[|i l]]; cbn;
      try reflexivity; now rewrite lookup_nil. }
  assert (E : points = [] → main topo points = Raise ValueError).
  { intros ->. apply (main_without_assignment topo [] features F). constructor. }
  split; [exact P|]. split; [exact E|].
  intros [r M]. destruct points; [rewrite E in M|rewrite P in M]; congruence.
Qed.
End CountyLists.

(** A topology whose only geometry is a point has no county: the run on one
    pharmacy ends with [IndexError]. *)
Lemma no_valid_county_no_report_example :
  topojson_to_geojson_features no_county "counties" = Ok [] ∧
  main (G := Rect.box) no_county [centre_point] = Raise IndexError.
Proof.
  split; [reflexivity|].
  destruct (no_valid_county_no_report (G := Rect.box) no_county [centre_point] []
              eq_refl (Forall_nil_2 _)) as (P & _ & _).
  apply P. discriminate.
Defined.

(** * Further properties of the histogram *)

Lemma status_partition (l : list (Q * Q * Z)) :
  Z.of_nat (length l)
  = Z.of_nat (length (with_status 0 l)) + Z.of_nat (length (with_status 1 l))
    + Z.of_nat (length (with_status 2 l)) + Z.of_nat (length (with_status 3 l))
    + Z.of_nat (length (filter (fun p => ¬ bucketed p) l)).
Proof.
  unfold with_status, bucketed. induction l as [|p l IH]; [reflexivity|].
  rewrite !filter_cons. repeat case_decide; cbn [length]; lia.
Qed.

Lemma expected_record_app (l1 l2 : list (Q * Q * Z)) :
  expected_record (l1 ++ l2)
  = zip_with Z.add (expected_record l1) (expected_record l2).
Proof.
  unfold expected_record, with_status. rewrite !filter_app, !length_app.
  cbn. repeat f_equal; lia.
Qed.

Lemma expected_record_permutation (l1 l2 : list (Q * Q * Z)) :
  l1 ≡ₚ l2 → expected_record l1 = expected_record l2.
Proof.
  intros P. unfold expected_record, with_status.
  now rewrite !(Permutation_length (filter_Permutation _ _ _ P)),
              (Permutation_length P).
Qed.

Section Histogram.
Context {G : Type} `{Shapely G}.
Variable county_shapes : list G.
Variable county_fips_list : list string.

Lemma assign_loop_resolvable (points : list (Q * Q * Z)) :
  ∀ st st',
    assign_loop county_shapes county_fips_list st points = Ok st' →
    Forall (fun p => ∃ r, resolve county_shapes county_fips_list p = Ok r) points.
Proof.
  induction points as [|p points IH]; intros st st' L; [constructor|].
  cbn in L.
  destruct (assign_step county_shapes county_fips_list st p) as [st1|] eqn:S;
    [|discriminate].
  constructor; [|exact (IH _ _ L)].
  rewrite assign_step_resolve in S.
  destruct (resolve county_shapes county_fips_list p) as [r|]; [eauto|discriminate].
Qed.

Lemma record_or_zero_expected (points : list (Q * Q * Z)) (st : tally)
    (fips : string) :
  loop_invariant county_shapes county_fips_list points st →
  record_or_zero (density st) fips
  = expected_record (hits county_shapes county_fips_list fips points).
Proof.
  intros (Hd & _). unfold record_or_zero. rewrite Hd.
  destruct (decide (_ = [])) as [->|]; reflexivity.
Qed.

(** X9: in the histogram of a run, the [total] of a county is the sum of its
    four status buckets plus the number of its points whose status has no
    bucket; it is at least one, no bucket is negative, and when every status
    is in [0..3] the total is the sum of the buckets. *)
Theorem record_total_split (points : list (Q * Q * Z)) (st : tally)
    (fips : string) (v : list Z) :
  assign_loop county_shapes county_fips_list (Tally ∅ 0 0) points = Ok st →
  density st !! fips = Some v →
  ∃ total c0 c1 c2 c3,
    v = [total; c0; c1; c2; c3] ∧
    total = c0 + c1 + c2 + c3
            + Z.of_nat (length (filter (fun p => ¬ bucketed p)
                                  (hits county_shapes county_fips_list fips points))) ∧
    1 <= total ∧ 0 <= c0 ∧ 0 <= c1 ∧ 0 <= c2 ∧ 0 <= c3 ∧
    (Forall bucketed points → total = c0 + c1 + c2 + c3).
Proof.
  intros L Hv. destruct (invariant_final _ _ _ _ L) as (Hd & _).
  rewrite Hd in Hv. destruct (decide (_ = [])) as [|Hne]; [discriminate|].
  injection Hv as <-. do 5 eexists. split; [reflexivity|].
  pose proof (status_partition (hits county_shapes county_fips_list fips points)) as P.
  split; [exact P|].
  split; [destruct (hits county_shapes county_fips_list fips points);
          [congruence|cbn [length]; lia]|].
  repeat (split; [lia|]).
  intros B. rewrite P.
  assert (E : filter (fun p => ¬ bucketed p)
                (hits county_shapes county_fips_list fips points) = []).
  { destruct (filter _ _) as [|p rest] eqn:F; [reflexivity|]. exfalso.
    assert (Hp : p ∈ filter (fun p => ¬ bucketed p)
                   (hits county_shapes county_fips_list fips points))
      by (rewrite F; apply elem_of_cons; now left).
    apply list_elem_of_filter in Hp as [Hn Hp]. apply Hn.
    apply list_elem_of_filter in Hp as [_ Hp].
    exact (proj1 (Forall_forall _ _) B p Hp). }
  rewrite E. cbn. lia.
Qed.

(** X10: the histogram and the counters do not depend on the order of the
    points: the run on a permutation of the point list returns, and ends in
    the same records for the same counties and the same counts. *)
Theorem histogram_order_independent (points points' : list (Q * Q * Z))
    (st : tally) :
  points ≡ₚ points' →
  assign_loop county_shapes county_fips_list (Tally ∅ 0 0) points = Ok st →
  assign_loop county_shapes county_fips_list (Tally ∅ 0 0) points' = Ok st.
Proof.
  intros P L.
  pose proof (assign_loop_resolvable _ _ _ L) as R. rewrite P in R.
  destruct (assign_loop_returns county_shapes county_fips_list points' [] _
              (invariant_init _ _) R) as [st' L'].
  rewrite L'. f_equal.
  destruct (invariant_final _ _ _ _ L) as (Hd & _ & Hc & Hu).
  destruct (invariant_final _ _ _ _ L') as (Hd' & _ & Hc' & Hu').
  destruct st as [d a u], st' as [d' a' u']. cbn [density assigned unassigned] in *.
  assert (U : u' = u).
  { rewrite Hu, Hu'.
    now rewrite (Permutation_length (filter_Permutation _ _ _ P)). }
  assert (A : a' = a) by (rewrite (Permutation_length P) in Hc; lia).
  assert (D : d' = d).
  { apply map_eq. intros fips. rewrite Hd, Hd'.
    pose proof (filter_Permutation
                  (assigned_to county_shapes county_fips_list fips) _ _ P) as PH.
    fold (hits county_shapes county_fips_list fips points) in PH.
    fold (hits county_shapes county_fips_list fips points') in PH.
    rewrite (expected_record_permutation _ _ PH).
    destruct (decide (hits county_shapes county_fips_list fips points = []))
      as [E|E], (decide (hits county_shapes county_fips_list fips points' = []))
      as [E'|E']; try reflexivity.
    - rewrite E in PH. apply Permutation_nil_l in PH. congruence.
    - rewrite E' in PH. apply Permutation_nil_r in PH. congruence. }
  now rewrite U, A, D.
Qed.

(** X11: the histogram of a point list cut in two is the sum of the
    histograms of the two parts run on their own: the counters add up, and
    so do the records of each county, entry by entry (a county without a
    record counting as zeros); a county has a record exactly when it has
    one in a part. *)
Theorem histogram_of_parts (l1 l2 : list (Q * Q * Z)) (st : tally) :
  assign_loop county_shapes county_fips_list (Tally ∅ 0 0) (l1 ++ l2) = Ok st →
  ∃ st1 st2,
    assign_loop county_shapes county_fips_list (Tally ∅ 0 0) l1 = Ok st1 ∧
    assign_loop county_shapes county_fips_list (Tally ∅ 0 0) l2 = Ok st2 ∧
    assigned st = assigned st1 + assigned st2 ∧
    unassigned st = unassigned st1 + unassigned st2 ∧
    ∀ fips,
      record_or_zero (density st) fips
      = zip_with Z.add (record_or_zero (density st1) fips)
                       (record_or_zero (density st2) fips) ∧
      (density st !! fips = None
       ↔ density st1 !! fips = None ∧ density st2 !! fips = None).
Proof.
  intros L.
  pose proof (assign_loop_resolvable _ _ _ L) as R.
  apply Forall_app in R as [R1 R2].
  destruct (assign_loop_returns county_shapes county_fips_list l1 [] _
              (invariant_init _ _) R1) as [st1 L1].
  destruct (assign_loop_returns county_shapes county_fips_list l2 [] _
              (invariant_init _ _) R2) as [st2 L2].
  exists st1, st2. split; [exact L1|]. split; [exact L2|].
  pose proof (invariant_final _ _ _ _ L) as I.
  pose proof (invariant_final _ _ _ _ L1) as I1.
  pose proof (invariant_final _ _ _ _ L2) as I2.
  assert (U : unassigned st = unassigned st1 + unassigned st2).
  { destruct I as (_ & _ & _ & ->), I1 as (_ & _ & _ & ->), I2 as (_ & _ & _ & ->).
    rewrite filter_app, length_app. lia. }
  split; [|split; [exact U|]].
  - destruct I as (_ & _ & Hc & _), I1 as (_ & _ & Hc1 & _), I2 as (_ & _ & Hc2 & _).
    rewrite length_app in Hc. lia.
  - intros fips. split.
    + rewrite (record_or_zero_expected _ _ _ I), (record_or_zero_expected _ _ _ I1),
        (record_or_zero_expected _ _ _ I2).
      unfold hits. rewrite filter_app. apply expected_record_app.
    + destruct I as (Hd & _), I1 as (Hd1 & _), I2 as (Hd2 & _).
      rewrite Hd, Hd1, Hd2. unfold hits. rewrite filter_app.
      destruct (filter _ l1) as [|p1 h1], (filter _ l2) as [|p2 h2]; cbn [app];
        repeat case_decide; try congruence;
        (split; [intros E; try discriminate E; auto
                |intros [E1 E2]; try discriminate E1; try discriminate E2; auto]).
Qed.
End Histogram.

(** The second county of the sample run: two points, one of them with
    status 7, which has no bucket. *)
Lemma record_total_split_example :
  ∃ st,
    assign_loop [square_box; square_box2] ["01001"; "01003"] (Tally ∅ 0 0)
                sample_points = Ok st ∧
    density st !! "01003" = Some [2; 0; 0; 0; 1] ∧
    Z.of_nat (length (filter (fun p => ¬ bucketed p)
                        (hits [square_box; square_box2] ["01001"; "01003"]
                              "01003" sample_points))) = 1.
Proof.
  destruct (assign_loop [square_box; square_box2] ["01001"; "01003"] (Tally ∅ 0 0)
                        sample_points) as [st|e] eqn:L;
    [|exfalso; vm_compute in L; discriminate L].
  exists st. split; [reflexivity|].
  assert (E : density st !! "01003" = Some [2; 0; 0; 0; 1]).
  { pose proof L as L'. vm_compute in L'. injection L' as <-.
    vm_compute. reflexivity. }
  split; [exact E|].
  destruct (record_total_split _ _ sample_points st "01003" _ L E)
    as (total & c0 & c1 & c2 & c3 & Hv & Hsplit & _).
  injection Hv as <- <- <- <- <-. lia.
Defined.

(** The sample run backwards ends in the same state. *)
Lemma histogram_order_independent_example :
  ∃ st,
    assign_loop [square_box; square_box2] ["01001"; "01003"] (Tally ∅ 0 0)
                sample_points = Ok st ∧
    assign_loop [square_box; square_box2] ["01001"; "01003"] (Tally ∅ 0 0)
                (rev sample_points) = Ok st.
Proof.
  destruct (assign_loop [square_box; square_box2] ["01001"; "01003"] (Tally ∅ 0 0)
                        sample_points) as [st|e] eqn:L;
    [|exfalso; vm_compute in L; discriminate L].
  exists st. split; [reflexivity|].
  apply (histogram_order_independent _ _ sample_points); [|exact L].
  apply Permutation_rev.
Defined.

(** The sample run cut after its second point. *)
Lemma histogram_of_parts_example :
  ∃ st st1 st2,
    assign_loop [square_box; square_box2] ["01001"; "01003"] (Tally ∅ 0 0)
                sample_points = Ok st ∧
    assign_loop [square_box; square_box2] ["01001"; "01003"] (Tally ∅ 0 0)
                (take 2 sample_points) = Ok st1 ∧
    assign_loop [square_box; square_box2] ["01001"; "01003"] (Tally ∅ 0 0)
                (drop 2 sample_points) = Ok st2 ∧
    assigned st = assigned st1 + assigned st2 ∧
    unassigned st = unassigned st1 + unassigned st2.
Proof.
  destruct (assign_loop [square_box; square_box2] ["01001"; "01003"] (Tally ∅ 0 0)
                        sample_points) as [st|e] eqn:L;
    [|exfalso; vm_compute in L; discriminate L].
  destruct (histogram_of_parts [square_box; square_box2] ["01001"; "01003"]
              (take 2 sample_points) (drop 2 sample_points) st L)
    as (st1 & st2 & L1 & L2 & A & U & _).
  exists st, st1, st2. repeat split; assumption.
Defined.

(** * The statistics *)

Lemma foldl_max (l : list Z) :
  ∀ x, foldl Z.max x l ∈ x :: l ∧ Forall (fun t => t <= foldl Z.max x l) (x :: l).
Proof.
  induction l as [|y l IH]; intros x; cbn [foldl].
  - split; [apply elem_of_cons; now left|]. apply Forall_singleton. lia.
  - destruct (IH (Z.max x y)) as [Hin Hall].
    apply Forall_cons in Hall as [Hm Hall]. split.
    + apply elem_of_cons in Hin as [->|Hin].
      * destruct (Z.max_spec x y) as [[_ ->]|[_ ->]].
        -- apply elem_of_cons. right. apply elem_of_cons. now left.
        -- apply elem_of_cons. now left.
      * do 2 (apply elem_of_cons; right). exact Hin.
    + repeat (apply Forall_cons; split); [lia..|exact Hall].
Qed.

Lemma filter_all {A} (P : A → Prop) `{∀ x, Decision (P x)} (l : list A) :
  Forall P l → filter P l = l.
Proof.
  induction 1 as [|x l Hx _ IH]; [reflexivity|].
  now rewrite filter_cons_True, IH.
Qed.

(** The element at index [k] of a sorted list has more than [k] elements
    at or below it, and all those from index [k] on at or above it. *)
Lemma sorted_rank (s : list Z) (k : nat) (x : Z) :
  StronglySorted Z.le s → s !! k = Some x →
  (k < length (filter (fun t => (t <= x)%Z) s))%nat ∧
  (length s - k <= length (filter (fun t => (x <= t)%Z) s))%nat.
Proof.
  intros S Hk. pose proof (lookup_lt_Some _ _ _ Hk) as Hlt.
  rewrite <- (take_drop_middle s k x Hk) in S |- *.
  apply StronglySorted_app in S as (Hle & _ & S).
  apply StronglySorted_cons in S as [Hge _].
  assert (Hlow : Forall (fun t => t <= x) (take k s)).
  { apply Forall_forall. intros t Ht. apply (Hle t x Ht).
    apply elem_of_cons. now left. }
  rewrite !filter_app, !length_app, (filter_all _ _ Hlow).
  rewrite (filter_cons_True _ x) by lia.
  rewrite (filter_cons_True (fun t => x <= t) x) by lia.
  rewrite (filter_all (fun t => x <= t) _ Hge).
  cbn [length]. rewrite length_take, length_drop. lia.
Qed.

Lemma mapM_index0 (vs : list (list Z)) (totals : list Z) :
  mapM (fun v : list Z => index v 0) vs = Ok totals →
  totals = (fun v : list Z => default 0 (v !! 0%nat)) <$> vs ∧
  Forall (fun v : list Z => is_Some (v !! 0%nat)) vs.
Proof.
  revert totals. induction vs as [|v vs IH]; intros totals M.
  - injection M as <-. now split.
  - cbn [mapM] in M.
    destruct (index v 0) as [t|] eqn:E; cbn [mbind result_bind] in M;
      [|discriminate].
    destruct (mapM _ vs) as [ts|]; cbn [mbind result_bind mret result_ret] in M;
      [|discriminate].
    injection M as <-. unfold index in E.
    destruct (v !! 0%nat) as [t'|] eqn:E'; [injection E as ->|discriminate].
    destruct (IH ts eq_refl) as [-> F].
    split; [cbn; now rewrite E'|]. constructor; [now exists t|exact F].
Qed.

Lemma stats_unfold (d : gmap string (list Z)) (m median : Z) :
  stats d = Ok (m, median) →
  ∃ t0 totals,
    county_totals d = t0 :: totals ∧
    m = foldl Z.max t0 totals ∧
    merge_sort Z.le (t0 :: totals) !! (length (t0 :: totals) / 2)%nat = Some median ∧
    Forall (fun v : list Z => is_Some (v !! 0%nat)) (snd <$> map_to_list d).
Proof.
  unfold stats. intros S.
  destruct (mapM _ (snd <$> map_to_list d)) as [totals|] eqn:M; [|discriminate].
  cbn [mbind result_bind] in S.
  apply mapM_index0 in M as [T Hsome].
  assert (CT : totals = county_totals d).
  { rewrite T. unfold county_totals. now rewrite <- list_fmap_compose. }
  destruct totals as [|t0 totals]; [discriminate|].
  cbn [py_max mbind result_bind] in S. unfold index in S.
  destruct (merge_sort Z.le (t0 :: totals) !! (length (t0 :: totals) / 2)%nat)
    as [med|] eqn:Med; [|discriminate].
  injection S as <- <-. now exists t0, totals.
Qed.

Lemma stats_members (d : gmap string (list Z)) (m median : Z) :
  stats d = Ok (m, median) →
  m ∈ county_totals d ∧ median ∈ county_totals d ∧
  Forall (fun t => t <= m) (county_totals d).
Proof.
  intros S. destruct (stats_unfold d m median S) as (t0 & totals & CT & -> & Med & _).
  destruct (foldl_max totals t0) as [Hin Hall]. rewrite CT.
  split; [exact Hin|]. split; [|exact Hall].
  rewrite <- (merge_sort_Permutation Z.le (t0 :: totals)).
  exact (list_elem_of_lookup_2 _ _ _ Med).
Qed.

(** X12: when the statistics are computed, the maximum is the total of some
    county and no county has more; the median is the total of some county,
    more than half of the counties (rounded down) have that much or less and
    the other half or more have that much or more: with an even number of
    counties it is the upper of the two middle totals. *)
Theorem stats_max_median (d : gmap string (list Z)) (m median : Z) :
  stats d = Ok (m, median) →
  (∀ fips v, d !! fips = Some v →
             ∃ t, v !! 0%nat = Some t ∧ t ∈ county_totals d ∧ t <= m) ∧
  m ∈ county_totals d ∧
  median ∈ county_totals d ∧
  median <= m ∧
  (size d / 2 < length (filter (fun t => (t <= median)%Z) (county_totals d)))%nat ∧
  (size d - size d / 2
   <= length (filter (fun t => (median <= t)%Z) (county_totals d)))%nat.
Proof.
  intros S. destruct (stats_members d m median S) as (Hin & Hmed & Hall).
  destruct (stats_unfold d m median S) as (t0 & totals & CT & _ & Med & Hsome).
  assert (Len : length (t0 :: totals) = size d).
  { rewrite <- CT. unfold county_totals.
    now rewrite length_fmap, length_map_to_list. }
  pose proof (merge_sort_Permutation Z.le (t0 :: totals)) as P.
  destruct (sorted_rank _ _ _ (StronglySorted_merge_sort Z.le (t0 :: totals)) Med)
    as [Lo Hi].
  rewrite (Permutation_length (filter_Permutation _ _ _ P)) in Lo.
  rewrite (Permutation_length (filter_Permutation _ _ _ P)) in Hi.
  rewrite (Permutation_length P), Len in Hi. rewrite Len in Lo.
  rewrite <- CT in Lo, Hi.
  split; [|split; [exact Hin|split; [exact Hmed|split; [|split; [exact Lo|exact Hi]]]]].
  - intros fips v Hv.
    assert (Hel : v ∈ snd <$> map_to_list d).
    { apply list_elem_of_fmap. exists (fips, v).
      split; [reflexivity|now apply elem_of_map_to_list]. }
    destruct (proj1 (Forall_forall _ _) Hsome v Hel) as [t Ht].
    exists t. split; [exact Ht|].
    assert (Hct : t ∈ county_totals d).
    { unfold county_totals. apply list_elem_of_fmap. exists (fips, v).
      split; [cbn; now rewrite Ht|now apply elem_of_map_to_list]. }
    split; [exact Hct|]. exact (proj1 (Forall_forall _ _) Hall t Hct).
  - exact (proj1 (Forall_forall _ _) Hall median Hmed).
Qed.

(** Three counties with totals 5, 1, 3: maximum 5, median 3. Two counties
    with totals 1, 2: the median is 2. *)
Lemma stats_max_median_example :
  stats three_records = Ok (5, 3) ∧ stats two_records = Ok (2, 2) ∧
  (size two_records / 2
   < length (filter (fun t => (t <= 2)%Z) (county_totals two_records)))%nat.
Proof.
  assert (S3 : stats three_records = Ok (5, 3)) by (vm_compute; reflexivity).
  assert (S2 : stats two_records = Ok (2, 2)) by (vm_compute; reflexivity).
  split; [exact S3|]. split; [exact S2|].
  exact (proj1 (proj2 (proj2 (proj2 (proj2 (stats_max_median two_records 2 2 S2)))))).
Defined.

(** * The report *)

Lemma sum_at_least (l : list Z) :
  Forall (fun t => 1 <= t) l →
  Z.of_nat (length l) <= foldr Z.add 0 l ∧
  ∀ x, x ∈ l → x <= foldr Z.add 0 l.
Proof.
  induction 1 as [|t l Ht _ [IHlen IHel]]; cbn [foldr length].
  - split; [lia|]. intros x Hx. inversion Hx.
  - split; [lia|]. intros x Hx. apply elem_of_cons in Hx as [->|Hx].
    + lia.
    + specialize (IHel x Hx). lia.
Qed.

Lemma size_keys_le (d : gmap string (list Z)) (l : list string) :
  (∀ k, is_Some (d !! k) → k ∈ l) → (size d <= length l)%nat.
Proof.
  intros Hk. rewrite <- length_map_to_list, <- (length_fmap fst).
  apply submseteq_length, NoDup_submseteq; [apply NoDup_fst_map_to_list|].
  intros k Hin. apply Hk.
  apply list_elem_of_fmap in Hin as ([k' v] & -> & Hin).
  apply elem_of_map_to_list in Hin. now exists v.
Qed.

Section Report.
Context {G : Type} `{Shapely G}.

Lemma build_shapes_le (features : list feature) :
  (length (build_shapes features).1 <= length features)%nat.
Proof.
  induction features as [|feat rest IH]; [reflexivity|]. cbn.
  destruct (build_shapes rest) as [shapes fips]. cbn [fst] in IH.
  destruct (shape (feat_geometry feat)) as [geom|]; [|cbn; lia].
  destruct (is_valid geom); cbn; lia.
Qed.

Lemma invariant_keys (county_shapes : list G) (county_fips_list : list string)
    (points : list (Q * Q * Z)) (st : tally) (k : string) :
  loop_invariant county_shapes county_fips_list points st →
  is_Some (density st !! k) → k ∈ county_fips_list.
Proof.
  intros (Hd & _) [v Hv]. rewrite Hd in Hv.
  destruct (hits county_shapes county_fips_list k points) as [|p hs] eqn:Hh;
    [discriminate|].
  assert (Hp : p ∈ hits county_shapes county_fips_list k points)
    by (rewrite Hh; apply elem_of_cons; now left).
  apply list_elem_of_filter in Hp as [Hp _].
  exact (resolve_in_fips _ _ _ _ Hp).
Qed.

Lemma invariant_totals (county_shapes : list G) (county_fips_list : list string)
    (points : list (Q * Q * Z)) (st : tally) :
  loop_invariant county_shapes county_fips_list points st →
  Forall (fun t => 1 <= t) (county_totals (density st)).
Proof.
  intros (Hd & _). apply Forall_forall. intros t Ht.
  apply list_elem_of_fmap in Ht as ([k v] & -> & Hin).
  apply elem_of_map_to_list in Hin. rewrite Hd in Hin.
  destruct (hits county_shapes county_fips_list k points) as [|p hs];
    [discriminate|].
  destruct (decide (_ = [])); [discriminate|]. injection Hin as <-.
  cbn. lia.
Qed.

(** X13: the numbers of a report are consistent: the assigned and the
    unassigned points make up the points loaded; there are no more valid
    geometries than polygons, and no more counties with pharmacies than
    valid geometries, but at least one; the county totals add up to the
    assigned points; and [1 <= median <= max <= assigned]. *)
Theorem report_consistent (topo : topology) (points : list (Q * Q * Z))
    (r : report) :
  main topo points = Ok r →
  pharmacies_loaded r = length points ∧
  reported_assigned r + reported_unassigned r = Z.of_nat (pharmacies_loaded r) ∧
  0 <= reported_unassigned r ∧
  (valid_county_geometries r <= county_polygons r)%nat ∧
  (1 <= counties_with_pharmacies r)%nat ∧
  (counties_with_pharmacies r <= valid_county_geometries r)%nat ∧
  Z.of_nat (counties_with_pharmacies r) <= reported_assigned r ∧
  sum_of_totals (county_density r) = reported_assigned r ∧
  1 <= median_per_county r ∧
  median_per_county r <= max_per_county r ∧
  max_per_county r <= reported_assigned r.
Proof.
  unfold main. intros M.
  destruct (topojson_to_geojson_features topo "counties") as [features|e];
    [|discriminate]. cbn [mbind result_bind] in M.
  pose proof (build_shapes_le features) as Hle.
  pose proof (build_shapes_length features) as Hlen.
  destruct (build_shapes features) as [county_shapes county_fips_list].
  cbn [fst snd] in Hle, Hlen.
  destruct (assign_loop county_shapes county_fips_list (Tally ∅ 0 0) points)
    as [st|e] eqn:L; [|discriminate]. cbn [mbind result_bind] in M.
  destruct (stats (density st)) as [[m median]|e] eqn:S; [|discriminate].
  injection M as <-. cbn.
  pose proof (invariant_final _ _ _ _ L) as I.
  pose proof (invariant_totals _ _ _ _ I) as Hpos.
  destruct (sum_at_least _ Hpos) as [Hcount Hel].
  destruct (stats_members _ _ _ S) as (Hm & Hmed & Hall).
  assert (Hsize : length (county_totals (density st)) = size (density st)).
  { unfold county_totals. now rewrite length_fmap, length_map_to_list. }
  destruct I as (Hd & Hs & Hc & Hu).
  change (foldr Z.add 0 (county_totals (density st)))
    with (sum_of_totals (density st)) in Hcount, Hel.
  rewrite Hs in Hcount, Hel. rewrite Hsize in Hcount.
  assert (Hkeys : (size (density st) <= length county_fips_list)%nat).
  { apply size_keys_le. intros k Hk.
    apply (invariant_keys county_shapes county_fips_list points st k);
      [now repeat split|exact Hk]. }
  assert (Hne : (1 <= size (density st))%nat).
  { rewrite <- Hsize. destruct (county_totals (density st)); [inversion Hm|cbn; lia]. }
  repeat split; try assumption; try lia.
  - exact (proj1 (Forall_forall _ _) Hpos median Hmed).
  - exact (proj1 (Forall_forall _ _) Hall median Hmed).
  - now apply Hel.
Qed.
End Report.

(** The report of the sample run over the two square counties. *)
Lemma report_consistent_example :
  ∃ r, main (G := Rect.box) two_counties sample_points = Ok r ∧
       reported_assigned r + reported_unassigned r = 5 ∧
       max_per_county r <= reported_assigned r.
Proof.
  destruct (main (G := Rect.box) two_counties sample_points) as [r|e] eqn:M;
    [|exfalso; vm_compute in M; discriminate M].
  exists r. split; [reflexivity|].
  destruct (report_consistent two_counties sample_points r M)
    as (Hn & Hsum & _ & _ & _ & _ & _ & _ & _ & _ & Hmax).
  rewrite Hn in Hsum. split; [exact Hsum|exact Hmax].
Defined.

(** * The cache of the topology *)

(** X14: given that the JSON library reads back what it writes, a call that
    returns leaves a cache file that parses to the data returned, and every
    later call returns the same data and leaves the file alone, whatever the
    download would give then. *)
Theorem cached_after_load `{Json J} (cache cache' : option string)
    (download : io_error + J) (data : J) :
  (∀ d : J, json_load (json_dump d) = Some d) →
  load_county_topojson cache download = (inr data, cache') →
  (∃ text, cache' = Some text ∧ json_load text = Some data) ∧
  ∀ download', load_county_topojson cache' download' = (inr data, cache').
Proof.
  intros RT L. unfold load_county_topojson in L.
  assert (C : ∃ text, cache' = Some text ∧ json_load text = Some data).
  { destruct cache as [text|].
    - destruct (json_load text) as [d|] eqn:P; [|discriminate].
      injection L as <- <-. eauto.
    - destruct download as [e|d]; [discriminate|].
      injection L as <- <-. eauto. }
  split; [exact C|]. destruct C as (text & -> & P).
  intros download'. unfold load_county_topojson. now rewrite P.
Qed.

(** With no cache file the document [true] is downloaded and cached; the
    next call returns it although the download fails. *)
Lemma cached_after_load_example :
  load_county_topojson None (inr true) = (inr true, Some "true") ∧
  load_county_topojson (Some "true") (inl RequestException : io_error + bool)
  = (inr true, Some "true").
Proof.
  assert (RT : ∀ d : bool, json_load (json_dump d) = Some d) by (now intros []).
  assert (L : load_county_topojson None (inr true) = (inr true, Some "true"))
    by reflexivity.
  split; [exact L|].
  exact (proj2 (cached_after_load None (Some "true") (inr true) true RT L)
           (inl RequestException)).
Defined.

(** * Arcs with the wrong nesting *)

Lemma decode_ring_too_deep (topo : topology) (rings : list (list Z)) :
  decode_ring topo (rings_json rings)
  = match rings with
    | [] => Ok []
    | _ :: _ => Raise TypeError
    end.
Proof. now destruct rings. Qed.

Lemma decode_rings_too_shallow (topo : topology) (ring : list Z) :
  decode_rings topo (Arr (Ref <$> ring))
  = match ring with
    | [] => Ok []
    | _ :: _ => Raise TypeError
    end.
Proof. now destruct ring. Qed.

Lemma convert_geometry_misnested (topo : topology) (geom : geometry) :
  misnested geom → convert_geometry topo geom = Raise TypeError.
Proof.
  intros [[Ht (polygons & rings & Ha & Hin & Hne)]
         |[Ht (rings & ring & Ha & Hin & Hne)]];
    unfold convert_geometry, decode_geometry; rewrite Ht, Ha;
    cbv [default from_option id].
  - rewrite String.eqb_refl. unfold decode_rings, polygons_json.
    cbn [iterate mbind result_bind].
    rewrite (mapM_raise (decode_ring topo) (rings_json <$> polygons)
               (rings_json rings) TypeError); [reflexivity| | |].
    + apply list_elem_of_fmap. now exists rings.
    + rewrite decode_ring_too_deep. now destruct rings.
    + intros y e Hy Fy. apply list_elem_of_fmap in Hy as (rs & -> & _).
      rewrite decode_ring_too_deep in Fy. destruct rs; congruence.
  - change (String.eqb "MultiPolygon" "Polygon") with false.
    rewrite String.eqb_refl. unfold rings_json. cbn [iterate mbind result_bind].
    rewrite (mapM_raise (decode_rings topo) ((fun r => Arr (Ref <$> r)) <$> rings)
               (Arr (Ref <$> ring)) TypeError); [reflexivity| | |].
    + apply list_elem_of_fmap. now exists ring.
    + rewrite decode_rings_too_shallow. now destruct ring.
    + intros y e Hy Fy. apply list_elem_of_fmap in Hy as (r & -> & _).
      rewrite decode_rings_too_shallow in Fy. destruct r; congruence.
Qed.

(** X16: a polygon whose [arcs] member has the nesting of a multi-polygon,
    or a multi-polygon whose [arcs] member has that of a polygon, is never
    converted (unless the member holds empty lists only): decoding it raises
    [TypeError], before any arc is looked up, and the conversion and the
    run end with an error. *)
Theorem misnested_arcs_abort `{Shapely G} (topo : topology)
    (geometries : list geometry) (geom : geometry) (points : list (Q * Q * Z)) :
  topo_objects topo !! "counties" = Some geometries →
  geom ∈ geometries →
  misnested geom →
  convert_geometry topo geom = Raise TypeError ∧
  ∃ e, topojson_to_geojson_features topo "counties" = Raise e ∧
       main topo points = Raise e.
Proof.
  intros Hobj Hin Hm.
  assert (Hg := convert_geometry_misnested topo geom Hm).
  split; [exact Hg|].
  destruct (features_loop_raises topo geometries geom _ Hin Hg) as [e He].
  assert (F : topojson_to_geojson_features topo "counties" = Raise e)
    by (unfold topojson_to_geojson_features; now rewrite Hobj).
  exists e. split; [exact F|now apply main_raises].
Qed.

(** A polygon whose rings are wrapped once too often, as in a
    multi-polygon. *)
Lemma misnested_arcs_abort_example :
  main (G := Rect.box) misnested_county [centre_point] = Raise TypeError.
Proof.
  destruct (misnested_arcs_abort (G := Rect.box) misnested_county
              [Geometry "Polygon" (Some (polygons_json [[[0]]])) (IdStr "01001") None]
              (Geometry "Polygon" (Some (polygons_json [[[0]]])) (IdStr "01001") None)
              [centre_point] eq_refl)
    as (_ & e & F & M).
  - apply elem_of_cons. now left.
  - left. split; [reflexivity|]. exists [[[0]]], [[0]].
    split; [reflexivity|]. split; [apply elem_of_cons; now left|discriminate].
  - assert (E : e = TypeError) by (vm_compute in F; now injection F as <-).
    now rewrite <- E.
Defined.

(** * Counts only grow *)

Section Growth.
Context {G : Type} `{Shapely G}.
Variable county_shapes : list G.
Variable county_fips_list : list string.

(** X17: along a run, a record is never deleted and no count ever goes
    down: if the loop has reached [st] after the points [done] and reaches
    [st'] after some more points, every record of [st] is still there in
    [st'], with each entry at least as large, and so are the two counters. *)
Theorem counts_only_grow (done more : list (Q * Q * Z)) (st st' : tally) :
  assign_loop county_shapes county_fips_list (Tally ∅ 0 0) done = Ok st →
  assign_loop county_shapes county_fips_list (Tally ∅ 0 0) (done ++ more) = Ok st' →
  assigned st <= assigned st' ∧
  unassigned st <= unassigned st' ∧
  ∀ fips v, density st !! fips = Some v →
            ∃ v', density st' !! fips = Some v' ∧ Forall2 Z.le v v'.
Proof.
  intros L L'.
  destruct (invariant_final _ _ _ _ L) as (Hd & Hs & Hc & Hu).
  destruct (invariant_final _ _ _ _ L') as (Hd' & Hs' & Hc' & Hu').
  rewrite filter_app, length_app in Hu'. rewrite length_app in Hc'.
  assert (Hf : ∃ n, (n <= length more)%nat ∧
                    unassigned st' = unassigned st + Z.of_nat n).
  { match type of Hu' with
    | context [(_ + length ?l)%nat] => exists (length l)
    end.
    split; [apply length_filter|lia]. }
  destruct Hf as (n & Hn & Hun).
  assert (U : unassigned st <= unassigned st') by lia.
  assert (A : assigned st <= assigned st') by lia.
  split; [exact A|]. split; [exact U|].
  intros fips v Hv. rewrite Hd in Hv. rewrite Hd'.
  destruct (decide (hits county_shapes county_fips_list fips done = []))
    as [|Hne]; [discriminate|]. injection Hv as <-.
  unfold hits in *. rewrite filter_app.
  destruct (decide (_ ++ _ = [])) as [E|_];
    [apply app_eq_nil in E as [E _]; contradiction|].
  eexists. split; [reflexivity|].
  rewrite expected_record_app. unfold expected_record. cbn.
  repeat constructor; lia.
Qed.
End Growth.

(** The first county of the sample run after two points and after all
    five. *)
Lemma counts_only_grow_example :
  ∃ st st',
    assign_loop [square_box; square_box2] ["01001"; "01003"] (Tally ∅ 0 0)
                (take 2 sample_points) = Ok st ∧
    assign_loop [square_box; square_box2] ["01001"; "01003"] (Tally ∅ 0 0)
                sample_points = Ok st' ∧
    assigned st <= assigned st' ∧ unassigned st <= unassigned st'.
Proof.
  destruct (assign_loop [square_box; square_box2] ["01001"; "01003"] (Tally ∅ 0 0)
                        (take 2 sample_points)) as [st|e] eqn:L;
    [|exfalso; vm_compute in L; discriminate L].
  destruct (assign_loop [square_box; square_box2] ["01001"; "01003"] (Tally ∅ 0 0)
                        sample_points) as [st'|e] eqn:L';
    [|exfalso; vm_compute in L'; discriminate L'].
  exists st, st'. split; [reflexivity|]. split; [reflexivity|].
  destruct (counts_only_grow [square_box; square_box2] ["01001"; "01003"]
              (take 2 sample_points) (drop 2 sample_points) st st' L L')
    as (A & U & _).
  split; [exact A|exact U].
Defined.

(** * The resolver and the index *)

Section Candidate.
Context {G : Type} `{Shapely G}.
Variable county_shapes : list G.
Variable county_fips_list : list string.

(** Where [query_nearest] answers with an index, alone or at the head of an
    array, that is in range of the two lists, the loop body does one of two
    things: when the geometry at that index contains the point or lies
    closer to it than 0.01, the record of its key gets one more in [total]
    and in the bucket of a status in [0..3], and [assigned] one more;
    otherwise [unassigned] gets one more and nothing else changes. *)
Lemma assignment_effect (st : tally) (lon lat : Q) (s : Z) (idx : nat) (g : G)
    (fips : string) (total c0 c1 c2 c3 : Z) :
  query_nearest county_shapes (lon, lat) = Scalar idx ∨
  (∃ l, query_nearest county_shapes (lon, lat) = Indices (idx :: l)) →
  county_shapes !! idx = Some g →
  county_fips_list !! idx = Some fips →
  density st !! fips = Some [total; c0; c1; c2; c3] ∨
  (density st !! fips = None ∧ [total; c0; c1; c2; c3] = [0; 0; 0; 0; 0]) →
  (contains g (lon, lat) = true ∨ (distance g (lon, lat) < 1 # 100)%Q →
   assign_step county_shapes county_fips_list st (lon, lat, s)
   = Ok (Tally (<[fips := [total + 1;
                           c0 + (if decide (s = 0) then 1 else 0);
                           c1 + (if decide (s = 1) then 1 else 0);
                           c2 + (if decide (s = 2) then 1 else 0);
                           c3 + (if decide (s = 3) then 1 else 0)]]> (density st))
               (assigned st + 1) (unassigned st))) ∧
  (¬ (contains g (lon, lat) = true ∨ (distance g (lon, lat) < 1 # 100)%Q) →
   assign_step county_shapes county_fips_list st (lon, lat, s)
   = Ok (Tally (density st) (assigned st) (unassigned st + 1))).
Proof.
  intros Hq Hg Hf Hd.
  assert (Hn : nearest_index county_shapes (lon, lat) = Ok idx).
  { unfold nearest_index. destruct Hq as [->|[l ->]]; reflexivity. }
  destruct (assignment_policy county_shapes county_fips_list st lon lat s idx g fips
              Hn Hg Hf) as (_ & _ & Hyes & Hno & _).
  split; [|exact Hno].
  intros N. rewrite (Hyes N), (record_point_buckets _ _ s _ _ _ _ _ Hd).
  reflexivity.
Qed.
End Candidate.

(** C1 fails on the code where the index is empty: with no county geometry
    the loop body raises [IndexError] for every point, from every state and
    whatever [query_nearest] answers, so the point is neither assigned nor
    counted as unassigned; and the run over a topology without a polygon
    ends with that error at its first point. *)
Theorem empty_index_raises :
  (∀ (G : Type) (K : Shapely G) (st : tally) (p : Q * Q * Z),
     @assign_step G K [] [] st p = Raise IndexError) ∧
  (∀ (G : Type) (K : Shapely G),
     @main G K no_county [centre_point] = Raise IndexError).
Proof.
  assert (S : ∀ (G : Type) (K : Shapely G) (st : tally) (p : Q * Q * Z),
            @assign_step G K [] [] st p = Raise IndexError).
  { intros G K st [[lon lat] s]. unfold assign_step, nearest_index, index.
    destruct (query_nearest [] (lon, lat)) as [i|[|i l]]; cbn;
      try reflexivity; now rewrite lookup_nil. }
  split; [exact S|].
  intros G K. unfold main.
  assert (F : topojson_to_geojson_features no_county "counties" = Ok [])
    by reflexivity.
  rewrite F. cbn [mbind result_bind build_shapes assign_loop].
  now rewrite S.
Qed.
